(** * dotfiles/logics.py: placement primitives and per-tool installers

    A shallow embedding of [dotfiles/logics.py].  The Python code is a
    sequence of [pathlib] / [shutil] / [tempfile] calls against the file
    system, so the development models

    - [pathlib.Path] values as a record (absolute flag, components) with the
      [/] operator of pathlib ([joinpath]);
    - the file system as a finite map from canonical absolute paths to nodes
      (regular file with content, directory, symbolic link).  A symbolic
      link is followed at the final component of a path, up to the kernel
      bound [MAXSYMLINKS]; symbolic links among the directory components of
      a path, hard links, permissions and the components [.] and [..] are
      outside the model;
    - Python statements as a state monad over the world with three ways to
      finish: normal completion, [return v], or a raised exception;
    - what the program cannot decide by itself (the search path, the names
      [tempfile] draws, the answers of the network) as oracles in [Env]. *)

From Stdlib Require Import Ascii String.
From stdpp Require Import gmap strings list fin_maps.

Set Default Proof Using "Type".

(** ** Strings: [str.format] with one positional argument and [str.strip] *)

Definition nl : string := String "010"%char EmptyString.
Definition dq : string := String "034"%char EmptyString.

Definition is_space (c : ascii) : bool :=
  let n := nat_of_ascii c in
  ((9 <=? n) && (n <=? 13)) || ((28 <=? n) && (n <=? 32)).

Fixpoint lstrip (s : string) : string :=
  match s with
  | EmptyString => EmptyString
  | String c r => if is_space c then lstrip r else s
  end.

Fixpoint rstrip (s : string) : string :=
  match s with
  | EmptyString => EmptyString
  | String c r =>
      match rstrip r with
      | EmptyString => if is_space c then EmptyString else String c EmptyString
      | r' => String c r'
      end
  end.

Definition strip (s : string) : string := rstrip (lstrip s).

(** [tpl.format(arg)]: [{}] is the (single) replacement field, [{{] and [}}]
    are escaped braces; any other brace, or a second field, is an error
    ([ValueError] / [IndexError] in Python, [None] here).  [used] records
    that the one argument has been consumed. *)
Fixpoint format_aux (used : bool) (tpl arg : string) : option string :=
  match tpl with
  | EmptyString => Some EmptyString
  | String "{" (String "}" r) =>
      if used then None
      else match format_aux true r arg with
           | Some s => Some (arg +:+ s)
           | None => None
           end
  | String "{" (String "{" r) =>
      match format_aux used r arg with
      | Some s => Some (String "{" s)
      | None => None
      end
  | String "}" (String "}" r) =>
      match format_aux used r arg with
      | Some s => Some (String "}" s)
      | None => None
      end
  | String "{" _ => None
  | String "}" _ => None
  | String c r =>
      match format_aux used r arg with
      | Some s => Some (String c s)
      | None => None
      end
  end.

Definition format (tpl arg : string) : option string := format_aux false tpl arg.

Fixpoint join_slash (l : list string) : string :=
  match l with
  | [] => EmptyString
  | [x] => x
  | x :: r => x +:+ "/" +:+ join_slash r
  end.

(** ** Paths *)

Record Path := { absolute : bool; parts : list string }.

Global Instance Path_eq_dec : EqDecision Path.
Proof. solve_decision. Defined.

(** [a / b] of pathlib: an absolute right operand replaces the left one. *)
Definition joinpath (a b : Path) : Path :=
  if absolute b then b
  else {| absolute := absolute a; parts := parts a ++ parts b |}.

Infix "//" := joinpath (at level 40, left associativity).

(** [pathlib.Path(name)] for a single relative component such as [".vimrc"]. *)
Definition PurePath (name : string) : Path :=
  {| absolute := false; parts := [name] |}.

(** [str(p)] *)
Definition str_path (p : Path) : string :=
  if absolute p then "/" +:+ join_slash (parts p)
  else match parts p with
       | [] => "."
       | l => join_slash l
       end.

(** [os.path.basename] *)
Definition basename (p : Path) : string := List.last (parts p) EmptyString.

(** ** The world *)

Inductive node :=
  | File (content : string)
  | Dir
  | Symlink (target : list string).

Global Instance node_eq_dec : EqDecision node.
Proof. solve_decision. Defined.

Inductive event :=
  | EvClone (url : string) (to_path : list string)
  | EvGet (url : string).

Global Instance event_eq_dec : EqDecision event.
Proof. solve_decision. Defined.

Record World := {
  files : gmap (list string) node;
  cwd : list string;
  stdout : list string;
  log : list event;
  ntemp : nat
}.

Record Response := { status_code : nat; text : string }.

(** What the environment decides: where the package lives ([__file__] of an
    imported module is absolute), which programs [shutil.which] finds, the
    directory and the candidate names of [tempfile], what a clone delivers
    (the entries below the clone directory, or a failure) and what an HTTP
    GET answers (or a connection failure).  The network oracles are indexed
    by the number of network events so far, the name oracle by the number
    of temporary files made so far and the attempt. *)
Record Env := {
  module_dir : list string;
  which : string -> bool;
  tempdir : list string;
  tmp_names : nat -> nat -> string;
  clone_net : nat -> option (list (list string * node));
  http_net : nat -> option Response
}.

Definition set_files (f : gmap (list string) node) (w : World) : World :=
  {| files := f; cwd := cwd w; stdout := stdout w; log := log w; ntemp := ntemp w |}.

Definition add_event (e : event) (w : World) : World :=
  {| files := files w; cwd := cwd w; stdout := stdout w;
     log := log w ++ [e]; ntemp := ntemp w |}.

Definition add_stdout (s : string) (w : World) : World :=
  {| files := files w; cwd := cwd w; stdout := stdout w ++ [s];
     log := log w; ntemp := ntemp w |}.

Definition bump_temp (w : World) : World :=
  {| files := files w; cwd := cwd w; stdout := stdout w;
     log := log w; ntemp := S (ntemp w) |}.

(** ** Statements *)

Inductive exn :=
  | AssertionError
  | FileExistsError
  | FileNotFoundError
  | IsADirectoryError
  | NotADirectoryError
  | TooManyLinksError
  | SameFileError
  | ValueError
  | GitCommandError
  | ConnectionError.

Global Instance exn_eq_dec : EqDecision exn.
Proof. solve_decision. Defined.

Inductive outcome (R A : Type) :=
  | Val (a : A)
  | Ret (r : R)
  | Exn (e : exn).
Arguments Val {R A} a.
Arguments Ret {R A} r.
Arguments Exn {R A} e.

Definition M (R A : Type) : Type := World -> outcome R A * World.

Definition pure {R A : Type} (a : A) : M R A := fun w => (Val a, w).
Definition return_ {R A : Type} (r : R) : M R A := fun w => (Ret r, w).
Definition raise {R A : Type} (e : exn) : M R A := fun w => (Exn e, w).
Definition pass {R : Type} : M R unit := pure tt.

Definition bind {R A B : Type} (m : M R A) (k : A -> M R B) : M R B :=
  fun w =>
    match m w with
    | (Val a, w') => k a w'
    | (Ret r, w') => (Ret r, w')
    | (Exn e, w') => (Exn e, w')
    end.

Notation "x <- m ;; k" := (bind m (fun x => k))
  (at level 100, m at next level, k at level 200, only parsing).
Notation "m ;; k" := (bind m (fun _ => k))
  (at level 100, k at level 200, only parsing).

(** A method call: the callee's [return v] is the value of the call. *)
Definition call {R R' : Type} (body : M R R) : M R' R :=
  fun w =>
    match body w with
    | (Val r, w') => (Val r, w')
    | (Ret r, w') => (Val r, w')
    | (Exn e, w') => (Exn e, w')
    end.

Definition assert_ {R : Type} (b : bool) : M R unit :=
  if b then pass else raise AssertionError.

Definition get_world {R : Type} : M R World := fun w => (Val w, w).
Definition put_files {R : Type} (f : gmap (list string) node) : M R unit :=
  fun w => (Val tt, set_files f w).

(** ** The file system *)

Abbreviation FS := (gmap (list string) node).

(** The root is a directory; every other path is looked up in the store. *)
Definition node_at (f : FS) (ap : list string) : option node :=
  match ap with
  | [] => Some Dir
  | _ => f !! ap
  end.

Inductive resolved :=
  | Found (q : list string) (n : node)
  | Missing (q : list string)
  | Loop.

(** Follow the symbolic links at the final component ([stat] as opposed
    to [lstat]); [Loop] is the kernel's ELOOP. *)
Fixpoint follow (fuel : nat) (f : FS) (ap : list string) : resolved :=
  match node_at f ap with
  | None => Missing ap
  | Some (Symlink t) =>
      match fuel with
      | 0 => Loop
      | S k => follow k f t
      end
  | Some n => Found ap n
  end.

Definition MAXSYMLINKS : nat := 40.

Definition stat (f : FS) (ap : list string) : resolved := follow MAXSYMLINKS f ap.

Definition parent_error (f : FS) (ap : list string) : option exn :=
  match node_at f (removelast ap) with
  | Some Dir => None
  | None => Some FileNotFoundError
  | Some _ => Some NotADirectoryError
  end.

Definition os_unlink (f : FS) (ap : list string) : exn + FS :=
  match node_at f ap with
  | None => inl FileNotFoundError
  | Some Dir => inl IsADirectoryError
  | Some _ => inr (delete ap f)
  end.

(** An existing entry is reported first (EEXIST); in a well-formed store an
    entry has a directory as its parent, so the order of the two checks
    cannot be observed there. *)
Definition os_symlink (f : FS) (target ap : list string) : exn + FS :=
  match node_at f ap with
  | Some _ => inl FileExistsError
  | None =>
      match parent_error f ap with
      | Some e => inl e
      | None => inr (<[ap := Symlink target]> f)
      end
  end.

Definition os_mkdir (f : FS) (ap : list string) : exn + FS :=
  match node_at f ap with
  | Some _ => inl FileExistsError
  | None =>
      match parent_error f ap with
      | Some e => inl e
      | None => inr (<[ap := Dir]> f)
      end
  end.

(** [open(p, "w")] followed by writing [content] and closing. *)
Definition open_w (f : FS) (ap : list string) (content : string) : exn + FS :=
  match stat f ap with
  | Found q (File _) => inr (<[q := File content]> f)
  | Found _ Dir => inl IsADirectoryError
  | Found _ (Symlink _) => inl TooManyLinksError
  | Missing q =>
      match parent_error f q with
      | Some e => inl e
      | None => inr (<[q := File content]> f)
      end
  | Loop => inl TooManyLinksError
  end.

(** [open(p, "r")] and reading everything. *)
Definition open_r (f : FS) (ap : list string) : exn + string :=
  match stat f ap with
  | Found _ (File c) => inr c
  | Found _ Dir => inl IsADirectoryError
  | Found _ (Symlink _) => inl TooManyLinksError
  | Missing _ => inl FileNotFoundError
  | Loop => inl TooManyLinksError
  end.

Definition existsb_fs (f : FS) (ap : list string) : bool :=
  match stat f ap with
  | Found _ _ => true
  | _ => false
  end.

Definition is_fileb (f : FS) (ap : list string) : bool :=
  match stat f ap with
  | Found _ (File _) => true
  | _ => false
  end.

Definition is_dirb (f : FS) (ap : list string) : bool :=
  match stat f ap with
  | Found _ Dir => true
  | _ => false
  end.

Definition is_symlinkb (f : FS) (ap : list string) : bool :=
  match node_at f ap with
  | Some (Symlink _) => true
  | _ => false
  end.

(** [os.path.samefile] as [shutil] uses it: both stat to the same file. *)
Definition samefileb (f : FS) (a b : list string) : bool :=
  match stat f a, stat f b with
  | Found qa _, Found qb _ => bool_decide (qa = qb)
  | _, _ => false
  end.

(** [d] is a proper ancestor of [p]. *)
Definition strictly_below (d p : list string) : bool :=
  bool_decide (d `prefix_of` p) && negb (bool_decide (d = p)).

(** [d] has no entry below it. *)
Definition dir_emptyb (f : FS) (d : list string) : bool :=
  forallb (fun kv => negb (strictly_below d kv.1)) (map_to_list f).

(** [Path.mkdir(parents, exist_ok)] of pathlib, with its recursion on the
    parent; [fuel] bounds the depth (the length of the path is enough). *)
Fixpoint Path_mkdir (fuel : nat) (f : FS) (ap : list string)
    (parents exist_ok : bool) : exn + FS :=
  match os_mkdir f ap with
  | inr f' => inr f'
  | inl FileNotFoundError =>
      if negb parents || bool_decide (removelast ap = ap)
      then inl FileNotFoundError
      else
        match fuel with
        | 0 => inl FileNotFoundError
        | S k =>
            match Path_mkdir k f (removelast ap) true true with
            | inl e => inl e
            | inr f1 => Path_mkdir k f1 ap false exist_ok
            end
        end
  | inl e => if negb exist_ok || negb (is_dirb f ap) then inl e else inr f
  end.

(** [mkdir -p] as [git clone] does it for its target directory. *)
Fixpoint makedirs (f : FS) (pre rest : list string) : exn + FS :=
  match rest with
  | [] => inr f
  | c :: r =>
      let p := pre ++ [c] in
      match node_at f p with
      | Some Dir => makedirs f p r
      | None => makedirs (<[p := Dir]> f) p r
      | Some _ => inl NotADirectoryError
      end
  end.

Definition add_tree (root : list string) (tree : list (list string * node))
    (f : FS) : FS :=
  foldr (fun kv acc =>
           match kv.1 with
           | [] => acc
           | _ => <[root ++ kv.1 := kv.2]> acc
           end) f tree.

Definition TMP_MAX : nat := 10000.

(** The loop of [tempfile._mkstemp_inner]: the first candidate name with no
    entry (O_EXCL) in the temporary directory. *)
Fixpoint mkstemp_inner (f : FS) (dir : list string) (names : nat -> string)
    (n i : nat) : exn + list string :=
  match n with
  | 0 => inl FileExistsError
  | S n' =>
      match node_at f dir with
      | Some Dir =>
          match f !! (dir ++ [names i]) with
          | None => inr (dir ++ [names i])
          | Some _ => mkstemp_inner f dir names n' (S i)
          end
      | None => inl FileNotFoundError
      | Some _ => inl NotADirectoryError
      end
  end.

(** ** pathlib, shutil, tempfile, git and requests as statements *)

Definition abspath (w : World) (p : Path) : list string :=
  if absolute p then parts p else cwd w ++ parts p.

Definition lift_fs {R : Type} (op : FS -> exn + FS) : M R unit :=
  fun w =>
    match op (files w) with
    | inl e => (Exn e, w)
    | inr f' => (Val tt, set_files f' w)
    end.

Definition Path_exists {R : Type} (p : Path) : M R bool :=
  fun w => (Val (existsb_fs (files w) (abspath w p)), w).
Definition Path_is_symlink {R : Type} (p : Path) : M R bool :=
  fun w => (Val (is_symlinkb (files w) (abspath w p)), w).
Definition Path_is_file {R : Type} (p : Path) : M R bool :=
  fun w => (Val (is_fileb (files w) (abspath w p)), w).
Definition os_path_isdir {R : Type} (p : Path) : M R bool :=
  fun w => (Val (is_dirb (files w) (abspath w p)), w).

Definition Path_unlink {R : Type} (p : Path) : M R unit :=
  fun w => lift_fs (fun f => os_unlink f (abspath w p)) w.

(** [dst.symlink_to(src)]: the link stores [str(src)]; a relative target is
    relative to the directory of the link. *)
Definition Path_symlink_to {R : Type} (dst src : Path) : M R unit :=
  fun w =>
    let ap := abspath w dst in
    let target := if absolute src then parts src
                  else removelast ap ++ parts src in
    lift_fs (fun f => os_symlink f target ap) w.

Definition Path_mkdir_parents {R : Type} (p : Path) : M R unit :=
  fun w =>
    let ap := abspath w p in
    lift_fs (fun f => Path_mkdir (S (length ap)) f ap true false) w.

Definition write_text {R : Type} (p : Path) (content : string) : M R unit :=
  fun w => lift_fs (fun f => open_w f (abspath w p) content) w.

Definition shutil_copyfile {R : Type} (src dst : Path) : M R unit :=
  fun w =>
    if samefileb (files w) (abspath w src) (abspath w dst)
    then (Exn SameFileError, w)
    else
      match open_r (files w) (abspath w src) with
      | inl e => (Exn e, w)
      | inr c => write_text dst c w
      end.

(** [shutil.copy(src, dst)]; the permission bits of [copymode] are not
    modelled. *)
Definition shutil_copy {R : Type} (src dst : Path) : M R Path :=
  d <- os_path_isdir dst ;;
  let dst' := if d then dst // PurePath (basename src) else dst in
  shutil_copyfile src dst' ;;
  pure dst'.

Definition print {R : Type} (s : string) : M R unit :=
  fun w => (Val tt, add_stdout s w).

(** ** The module [dotfiles.logics] *)

Record Option := { dest_dir : Path; overwrite : bool }.

Inductive ExitCode := SUCCESS | SKIP.

Global Instance ExitCode_eq_dec : EqDecision ExitCode.
Proof. solve_decision. Defined.

Definition GIT_CONFIG_TEMPLATE : string :=
  nl +:+ "[include]" +:+ nl +:+
  "    path = {}" +:+ nl +:+
  "[filter " +:+ dq +:+ "lfs" +:+ dq +:+ "]" +:+ nl +:+
  "    clean = git-lfs clean -- %f" +:+ nl +:+
  "    smudge = git-lfs smudge -- %f" +:+ nl +:+
  "    process = git-lfs filter-process" +:+ nl +:+
  "    required = true" +:+ nl.

Definition ZSHRC_TEMPLATE : string :=
  nl +:+ "ZSHRC_FILE={}" +:+ nl +:+ ". $ZSHRC_FILE" +:+ nl.

Definition ZSHENV_TEMPLATE : string :=
  nl +:+ "ZSHENV_FILE={}" +:+ nl +:+ ". $ZSHENV_FILE" +:+ nl.

Definition VIMRC_TEMPLATE : string := "execute 'source {}'".

Definition ZSH_COMPLETIONS_URL : string :=
  "https://github.com/zsh-users/zsh-completions.git".

Definition PLUG_VIM_URL : string :=
  "https://raw.githubusercontent.com/junegunn/vim-plug/master/plug.vim".

Section Logics.

Variable env : Env.

(** [RESOURCES_PATH = pathlib.Path(__file__).parent / "resources"] *)
Definition RESOURCES_PATH : Path :=
  {| absolute := true; parts := module_dir env ++ ["resources"] |}.

(** [tempfile.NamedTemporaryFile(mode="w")]: a new empty file under a name
    that had no entry. *)
Definition NamedTemporaryFile {R : Type} : M R Path :=
  fun w =>
    match mkstemp_inner (files w) (tempdir env) (tmp_names env (ntemp w))
            TMP_MAX 0 with
    | inl e => (Exn e, bump_temp w)
    | inr t =>
        (Val {| absolute := true; parts := t |},
         bump_temp (set_files (<[t := File EmptyString]> (files w)) w))
    end.

(** [f.write(s); f.flush()] on the open temporary file: the bytes go to the
    file the descriptor holds, which is the one at [f.name] as long as that
    entry is still this regular file. *)
Definition tmp_write {R : Type} (f : Path) (s : string) : M R unit :=
  fun w =>
    match files w !! parts f with
    | Some (File _) => (Val tt, set_files (<[parts f := File s]> (files w)) w)
    | _ => (Val tt, w)
    end.

(** Leaving the [with] block closes the file, which deletes it. *)
Definition tmp_close {R : Type} (f : Path) : M R unit :=
  fun w => lift_fs (fun fs => os_unlink fs (parts f)) w.

(** [with tempfile.NamedTemporaryFile(mode="w") as f: body]: the file is
    deleted on every way out of the block. *)
Definition with_NamedTemporaryFile {R A : Type} (body : Path -> M R A) : M R A :=
  fun w =>
    match NamedTemporaryFile (R := R) w with
    | (Val f, w1) =>
        let (r, w2) := body f w1 in
        match tmp_close (R := R) f w2 with
        | (Exn e, w3) => (Exn e, w3)
        | (_, w3) => (r, w3)
        end
    | (Ret r, w1) => (Ret r, w1)
    | (Exn e, w1) => (Exn e, w1)
    end.

(** [template.format(path).strip()] *)
Definition render {R : Type} (tpl : string) (p : Path) : M R string :=
  match format tpl (str_path p) with
  | Some s => pure (strip s)
  | None => raise ValueError
  end.

Definition git_prepare_dir (f : FS) (ap : list string) : exn + FS :=
  match node_at f ap with
  | None => makedirs f [] ap
  | Some Dir => if dir_emptyb f ap then inr f else inl FileExistsError
  | Some _ => inl FileExistsError
  end.

(** [Repo.clone_from(url, to_path)]: [git clone] into a directory that is
    absent or empty; every failure surfaces as [GitCommandError]. *)
Definition Repo_clone_from {R : Type} (url : string) (to_path : Path) : M R unit :=
  fun w =>
    let ap := abspath w to_path in
    let w1 := add_event (EvClone url ap) w in
    match clone_net env (length (log w)) with
    | None => (Exn GitCommandError, w1)
    | Some tree =>
        match git_prepare_dir (files w) ap with
        | inl _ => (Exn GitCommandError, w1)
        | inr f1 => (Val tt, set_files (add_tree ap tree f1) w1)
        end
    end.

(** [requests.get(url)] *)
Definition requests_get {R : Type} (url : string) : M R Response :=
  fun w =>
    let w1 := add_event (EvGet url) w in
    match http_net env (length (log w)) with
    | None => (Exn ConnectionError, w1)
    | Some resp => (Val resp, w1)
    end.

Definition program_exist {R : Type} (base program : string) : M R bool :=
  call (
    (if which env program then return_ true else pass) ;;
    print ("[warning] " +:+ base +:+ " needs " +:+ program +:+ ". But "
           +:+ program +:+ " not found") ;;
    return_ false).

Definition SymLink_run {R : Type} (options : Option) (filename : string)
    : M R ExitCode :=
  call (
    let src := RESOURCES_PATH // PurePath filename in
    let dst := dest_dir options // PurePath filename in
    src_exists <- Path_exists src ;;
    assert_ src_exists ;;
    dst_exists <- Path_exists dst ;;
    (if dst_exists then
       if overwrite options then
         is_link <- Path_is_symlink dst ;;
         if is_link then Path_unlink dst else pass
       else return_ SKIP
     else pass) ;;
    Path_symlink_to dst src ;;
    return_ SUCCESS).

(** [dst = self._options.dest_dir / self._dst_path] *)
Definition CopyFile_dst (options : Option) (dst_path : Path) : Path :=
  dest_dir options // dst_path.

Definition CopyFile_run {R : Type} (options : Option) (src_path dst_path : Path)
    : M R ExitCode :=
  call (
    let dst := CopyFile_dst options dst_path in
    src_exists <- Path_exists src_path ;;
    assert_ src_exists ;;
    dst_exists <- Path_exists dst ;;
    (if dst_exists then
       if overwrite options then
         is_link <- Path_is_symlink dst ;;
         if is_link then Path_unlink dst
         else
           is_file <- Path_is_file dst ;;
           if is_file then pass else return_ SKIP
       else return_ SKIP
     else pass) ;;
    shutil_copy src_path dst ;;
    return_ SUCCESS).

Inductive Logic := TMux | Vimperator | Gdb | Fvwm2 | Git | Zsh | Vim | CommandLineHelper.

Definition name (l : Logic) : string :=
  match l with
  | TMux => "tmux"
  | Vimperator => "vimperator"
  | Gdb => "gdb"
  | Fvwm2 => "fvwm2"
  | Git => "git"
  | Zsh => "zsh"
  | Vim => "vim"
  | CommandLineHelper => "command-line helper"
  end.

Definition TMux_run {R : Type} (options : Option) : M R ExitCode :=
  call (
    program_exist (name TMux) "tmux" ;;
    program_exist (name TMux) "xsel" ;;
    r <- SymLink_run options ".tmux.conf" ;;
    return_ r).

Definition Vimperator_run {R : Type} (options : Option) : M R ExitCode :=
  call (
    r <- SymLink_run options ".vimperatorrc" ;;
    return_ r).

Definition Gdb_run {R : Type} (options : Option) : M R ExitCode :=
  call (
    program_exist (name Gdb) "gdb" ;;
    r <- SymLink_run options ".gdbinit" ;;
    return_ r).

Definition Fvwm2_run {R : Type} (options : Option) : M R ExitCode :=
  call (
    program_exist (name Fvwm2) "fvwm2" ;;
    r <- SymLink_run options ".fvwm2rc" ;;
    return_ r).

(** The [with] block of [Git.run]. *)
Definition Git_install_gitconfig (options : Option) : M ExitCode ExitCode :=
  with_NamedTemporaryFile (fun f =>
    let target := PurePath ".gitconfig" in
    let src := RESOURCES_PATH // target in
    src_exists <- Path_exists src ;;
    assert_ src_exists ;;
    s <- render GIT_CONFIG_TEMPLATE src ;;
    tmp_write f s ;;
    r <- CopyFile_run options f (dest_dir options // target) ;;
    return_ r).

Definition Git_run {R : Type} (options : Option) : M R ExitCode :=
  call (
    program_exist (name Git) "git" ;;
    program_exist (name Git) "git-lfs" ;;
    Git_install_gitconfig options).

(** The two [with] blocks of [Zsh.run]. *)
Definition Zsh_copy (options : Option) (tpl : string) (target : string)
    : M ExitCode ExitCode :=
  with_NamedTemporaryFile (fun f =>
    let conf_path := RESOURCES_PATH // PurePath target in
    conf_exists <- Path_exists conf_path ;;
    assert_ conf_exists ;;
    s <- render tpl conf_path ;;
    tmp_write f s ;;
    ret <- CopyFile_run options f (dest_dir options // PurePath target) ;;
    (if bool_decide (ret <> SUCCESS) then return_ ret else pass) ;;
    pure ret).

Definition Zsh_clone {R : Type} (options : Option) : M R unit :=
  let zsh_completions := dest_dir options // PurePath ".zsh-completions" in
  present <- Path_exists zsh_completions ;;
  if negb present then Repo_clone_from ZSH_COMPLETIONS_URL zsh_completions
  else pass.

Definition Zsh_run {R : Type} (options : Option) : M R ExitCode :=
  call (
    program_exist (name Zsh) "zsh" ;;
    Zsh_clone options ;;
    _ <- Zsh_copy options ZSHRC_TEMPLATE ".zshrc" ;;
    ret <- Zsh_copy options ZSHENV_TEMPLATE ".zshenv" ;;
    return_ ret).

Definition Vim_autoload (options : Option) : Path :=
  dest_dir options // PurePath ".vim" // PurePath "autoload".

Definition Vim_ensure_autoload {R : Type} (options : Option) : M R unit :=
  present <- Path_exists (Vim_autoload options) ;;
  if negb present then Path_mkdir_parents (Vim_autoload options) else pass.

Definition Vim_install_plug {R : Type} (options : Option) : M R unit :=
  let plug_vim := Vim_autoload options // PurePath "plug.vim" in
  present <- Path_exists plug_vim ;;
  if negb present || overwrite options then
    response <- requests_get PLUG_VIM_URL ;;
    assert_ (bool_decide (status_code response = 200)) ;;
    write_text plug_vim (text response)
  else pass.

(** The [with] block of [Vim.run] that installs [.vimrc]. *)
Definition Vim_install_vimrc (options : Option) : M ExitCode ExitCode :=
  with_NamedTemporaryFile (fun f =>
    let target := PurePath ".vimrc" in
    let conf_path := RESOURCES_PATH // target in
    conf_exists <- Path_exists conf_path ;;
    assert_ conf_exists ;;
    s <- (match format VIMRC_TEMPLATE (str_path conf_path) with
          | Some s => pure s
          | None => raise ValueError
          end) ;;
    tmp_write f s ;;
    r <- CopyFile_run options f (dest_dir options // target) ;;
    return_ r).

Definition Vim_run {R : Type} (options : Option) : M R ExitCode :=
  call (
    program_exist (name Vim) "vim" ;;
    Vim_ensure_autoload options ;;
    Vim_install_plug options ;;
    Vim_install_vimrc options).

Definition CommandLineHelper_run {R : Type} (options : Option) : M R ExitCode :=
  call (
    program_exist (name CommandLineHelper) "peco" ;;
    program_exist (name CommandLineHelper) "fzf" ;;
    program_exist (name CommandLineHelper) "direnv" ;;
    return_ SUCCESS).

(** [Logic.run] dispatched on the concrete class. *)
Definition run (l : Logic) (options : Option) : M ExitCode ExitCode :=
  match l with
  | TMux => TMux_run options
  | Vimperator => Vimperator_run options
  | Gdb => Gdb_run options
  | Fvwm2 => Fvwm2_run options
  | Git => Git_run options
  | Zsh => Zsh_run options
  | Vim => Vim_run options
  | CommandLineHelper => CommandLineHelper_run options
  end.

End Logics.

(** ** Vocabulary of the statements *)

(** A store is well formed when every entry sits in a directory. *)
Definition wf_fsb (f : FS) : bool :=
  forallb (fun kv => bool_decide (node_at f (removelast kv.1) = Some Dir))
          (map_to_list f).

Definition wf_fs (f : FS) : Prop := wf_fsb f = true.

(** The bundled resource [RESOURCES_PATH / filename] and the destination
    [dest_dir / filename] as absolute paths of the store. *)
Definition resource (env : Env) (filename : string) : list string :=
  parts (RESOURCES_PATH env // PurePath filename).

Definition destination (w : World) (o : Option) (filename : string) : list string :=
  abspath w (dest_dir o // PurePath filename).



(** The resource file a simple symlink installer places. *)
Definition symlink_target (l : Logic) : option string :=
  match l with
  | TMux => Some ".tmux.conf"
  | Vimperator => Some ".vimperatorrc"
  | Gdb => Some ".gdbinit"
  | Fvwm2 => Some ".fvwm2rc"
  | _ => None
  end.

(** ** Sample worlds

    A package installed under [/opt/dotfiles] with its resources, a
    temporary directory [/tmp] and a home directory [/home]. *)

Definition sample_env : Env := {|
  module_dir := ["opt"; "dotfiles"];
  which := fun _ => true;
  tempdir := ["tmp"];
  tmp_names := fun _ _ => "tmpq3x8k2df";
  clone_net := fun _ => Some [(["README.md"], File "zsh-completions")];
  http_net := fun _ => Some {| status_code := 200; text := "vim-plug" |}
|}.

Definition sample_resources : list string := ["opt"; "dotfiles"; "resources"].

Definition sample_files : FS :=
  list_to_map
    [ (["opt"], Dir); (["opt"; "dotfiles"], Dir); (sample_resources, Dir);
      (sample_resources ++ [".tmux.conf"], File "set -g prefix C-t");
      (sample_resources ++ [".vimperatorrc"], File "set gui=none");
      (sample_resources ++ [".gdbinit"], File "set history save on");
      (sample_resources ++ [".fvwm2rc"], File "DeskTopSize 2x2");
      (sample_resources ++ [".gitconfig"], File "[core]");
      (sample_resources ++ [".zshrc"], File "autoload -U compinit");
      (sample_resources ++ [".zshenv"], File "export LANG=C");
      (sample_resources ++ [".vimrc"], File "set nocompatible");
      (["tmp"], Dir); (["home"], Dir) ].

Definition world_of (f : FS) : World :=
  {| files := f; cwd := ["home"]; stdout := []; log := []; ntemp := 0 |}.

Definition sample_world : World := world_of sample_files.

Definition home : Path := {| absolute := true; parts := ["home"] |}.
Definition keep : Option := {| dest_dir := home; overwrite := false |}.
Definition force : Option := {| dest_dir := home; overwrite := true |}.

(** [/home/.tmux.conf] is a regular file of the user. *)
Definition world_plain_tmux : World :=
  world_of (<[ ["home"; ".tmux.conf"] := File "bind r source" ]> sample_files).

(** [/home/.tmux.conf] is a symbolic link to the bundled resource. *)
Definition world_linked_tmux : World :=
  world_of (<[ ["home"; ".tmux.conf"] :=
               Symlink (sample_resources ++ [".tmux.conf"]) ]> sample_files).

(** [/home/.tmux.conf] is a symbolic link whose target is gone. *)
Definition world_dangling_tmux : World :=
  world_of (<[ ["home"; ".tmux.conf"] := Symlink ["old"; ".tmux.conf"] ]> sample_files).



(** [/home/.gitconfig] is a directory. *)
Definition world_dir_gitconfig : World :=
  world_of (<[ ["home"; ".gitconfig"] := Dir ]> sample_files).


Definition bundled_vimrc : Path :=
  {| absolute := true; parts := sample_resources ++ [".vimrc"] |}.

(** What [CopyFile.run] makes of the result of its [shutil.copy]. *)
Definition after_copy {R : Type} (r : outcome ExitCode Path * World)
    : outcome R ExitCode * World :=
  match r with
  | (Val _, w2) => (Val SUCCESS, w2)
  | (Ret r, w2) => (Val r, w2)
  | (Exn e, w2) => (Exn e, w2)
  end.

(** [_check_file_exist] of the tests: the target exists (following links)
    and [st_size > 0]; a directory has a positive size. *)
Definition check_file_exist (f : FS) (ap : list string) : bool :=
  match stat f ap with
  | Found _ (File c) => negb (bool_decide (c = EmptyString))
  | Found _ Dir => true
  | _ => false
  end.

(** Two worlds that differ at most in what was printed. *)
Definition same_but_stdout (w w' : World) : Prop :=
  files w' = files w /\ cwd w' = cwd w /\ log w' = log w /\ ntemp w' = ntemp w.

Definition is_link (n : node) : bool :=
  match n with
  | Symlink _ => true
  | _ => false
  end.

(** [f'] is [f0] after writing a regular file through the path [d]: at
    the path [d] resolves to, which held a regular file or nothing. *)
Definition copied (f0 : FS) (d : list string) (f' : FS) : Prop :=
  exists q c, f' = <[q := File c]> f0 /\
    (stat f0 d = Missing q \/ exists c0, stat f0 d = Found q (File c0)).

(** The line [program_exist] prints for a program that is not found. *)
Definition warning (base program : string) : string :=
  "[warning] " +:+ base +:+ " needs " +:+ program +:+ ". But "
  +:+ program +:+ " not found".

(** What a run of [program_exist] over [programs] prints, in order. *)
Definition warnings (env : Env) (base : string) (programs : list string) : list string :=
  flat_map (fun p => if which env p then [] else [warning base p]) programs.

(** [n] consecutive runs of one installer, as the tests do with two: the
    outcomes in order and the world that is left. *)
Fixpoint runs (env : Env) (l : Logic) (o : Option) (n : nat) (w : World)
    : list (outcome ExitCode ExitCode) * World :=
  match n with
  | 0 => ([], w)
  | S k =>
      let (r, w1) := run env l o w in
      let (rs, w2) := runs env l o k w1 in
      (r :: rs, w2)
  end.

(** [w'] comes after [w] without any network event, in the same working
    directory, and with every directory of [w] still a directory. *)
Definition quiet (w w' : World) : Prop :=
  log w' = log w /\ cwd w' = cwd w /\
  forall p, files w !! p = Some Dir -> files w' !! p = Some Dir.

(** A statement all of whose runs are related by [Rel], however they end. *)
Definition preserves {R A : Type} (Rel : World -> World -> Prop) (m : M R A) : Prop :=
  forall w, Rel w (m w).2.

(** Consecutive runs of the Zsh installer on one destination, one per
    [overwrite] flag of the list. *)
Definition Zsh_runs (env : Env) (d : Path) (flags : list bool) (w : World) : World :=
  foldl (fun w b => (Zsh_run (R := ExitCode) env {| dest_dir := d; overwrite := b |} w).2)
        w flags.

(** [/home/.zsh-completions] is there already. *)
Definition world_with_completions : World :=
  world_of (<[ ["home"; ".zsh-completions"] := Dir ]> sample_files).

(** [f'] is [f] plus directories at paths that had no entry, all of them
    on the way to [ap]. *)
Definition grows_dirs (ap : list string) (f f' : FS) : Prop :=
  forall p, f' !! p = f !! p
            \/ (f !! p = None /\ f' !! p = Some Dir /\ p `prefix_of` ap).

(** Whether the directory step of [Vim.run] gets through. *)
Definition Vim_autoload_ready (o : Option) (w : World) : bool :=
  match (Vim_ensure_autoload (R := ExitCode) o w).1 with
  | Exn _ => false
  | _ => true
  end.

(** The plug-in manager answers 404. *)
Definition sample_env_404 : Env := {|
  module_dir := ["opt"; "dotfiles"];
  which := fun _ => true;
  tempdir := ["tmp"];
  tmp_names := fun _ _ => "tmpq3x8k2df";
  clone_net := fun _ => None;
  http_net := fun _ => Some {| status_code := 404; text := "Not Found" |}
|}.

(** ** Basic facts *)

Lemma abspath_join_name w p name :
  abspath w (p // PurePath name) = abspath w p ++ [name].
Proof.
  unfold abspath, joinpath; simpl.
  destruct (absolute p); simpl; [done|]. by rewrite app_assoc.
Qed.

Lemma abspath_set_files f w p : abspath (set_files f w) p = abspath w p.
Proof. done. Qed.

Lemma removelast_snoc {A} (l : list A) x : removelast (l ++ [x]) = l.
Proof. apply removelast_last. Qed.

Lemma node_at_snoc f (l : list string) x : node_at f (l ++ [x]) = f !! (l ++ [x]).
Proof. by destruct l. Qed.

Lemma snoc_ne_self {A} (l : list A) x : l ++ [x] <> l.
Proof.
  intros H. apply (f_equal length) in H. rewrite length_app in H. simpl in H. lia.
Qed.

Lemma wf_fs_parent f p n :
  wf_fs f -> f !! p = Some n -> node_at f (removelast p) = Some Dir.
Proof.
  unfold wf_fs, wf_fsb. rewrite forallb_forall. intros Hwf Hp.
  assert (Hin : In (p, n) (map_to_list f)).
  { apply list_elem_of_In. by apply elem_of_map_to_list. }
  specialize (Hwf _ Hin). simpl in Hwf. by apply bool_decide_eq_true in Hwf.
Qed.

Lemma wf_fs_intro f :
  (forall p n, f !! p = Some n -> node_at f (removelast p) = Some Dir) -> wf_fs f.
Proof.
  intros H. unfold wf_fs, wf_fsb. apply forallb_forall. intros [p n] Hin.
  apply bool_decide_eq_true_2. simpl. apply (H p n).
  apply elem_of_map_to_list. by apply list_elem_of_In.
Qed.


(** ** The placement primitives, case by case *)

Ltac unfold_stmt :=
  cbv beta iota zeta delta
    [call bind pure return_ raise pass assert_
     Path_exists Path_is_symlink Path_is_file os_path_isdir
     Path_unlink Path_symlink_to write_text lift_fs].

Lemma SymLink_run_cases env R o fn w :
  SymLink_run (R := R) env o fn w =
  let f := files w in
  let src := resource env fn in
  let dst := destination w o fn in
  let link f0 w0 :=
    match os_symlink f0 src dst with
    | inl e => (Exn e, w0)
    | inr f2 => (Val SUCCESS, set_files f2 w)
    end in
  if existsb_fs f src then
    if existsb_fs f dst then
      if overwrite o then
        if is_symlinkb f dst then
          match os_unlink f dst with
          | inl e => (Exn e, w)
          | inr f1 => link f1 (set_files f1 w)
          end
        else link f w
      else (Val SKIP, w)
    else link f w
  else (Exn AssertionError, w).
Proof.
  unfold SymLink_run, resource, destination. unfold_stmt.
  change (abspath w (RESOURCES_PATH env // PurePath fn))
    with (parts (RESOURCES_PATH env // PurePath fn)).
  destruct (existsb_fs _ (parts _)); [|done].
  destruct (existsb_fs _ (abspath _ _)).
  - destruct (overwrite o); [|done].
    destruct (is_symlinkb _ _).
    + destruct (os_unlink _ _); [done|].
      by destruct (os_symlink _ _ _).
    + by destruct (os_symlink _ _ _).
  - by destruct (os_symlink _ _ _).
Qed.

Lemma existsb_fs_node f p :
  existsb_fs f p = true -> exists n, node_at f p = Some n.
Proof.
  unfold existsb_fs, stat. simpl.
  destruct (node_at f p) as [n|]; [eauto|done].
Qed.

Lemma node_at_None_not_exists f p : node_at f p = None -> existsb_fs f p = false.
Proof. unfold existsb_fs, stat. simpl. by intros ->. Qed.

Lemma destination_snoc w o fn : destination w o fn = abspath w (dest_dir o) ++ [fn].
Proof. apply abspath_join_name. Qed.

Lemma os_symlink_fresh f target d x :
  node_at f d = Some Dir -> f !! (d ++ [x]) = None ->
  os_symlink f target (d ++ [x]) = inr (<[d ++ [x] := Symlink target]> f).
Proof.
  intros Hd Hx. unfold os_symlink, parent_error.
  by rewrite node_at_snoc, Hx, removelast_snoc, Hd.
Qed.

Lemma node_at_delete_ne f p q : p <> q -> node_at (delete p f) q = node_at f q.
Proof. intros H. destruct q; [done|]. simpl. by rewrite lookup_delete_ne. Qed.

Lemma node_at_insert_ne f p n q : p <> q -> node_at (<[p := n]> f) q = node_at f q.
Proof. intros H. destruct q; [done|]. simpl. by rewrite lookup_insert_ne. Qed.

Lemma relink_same (f : FS) k n w :
  files w = <[k := n]> f -> set_files (<[k := n]> (delete k (files w))) w = w.
Proof.
  destruct w as [fw ? ? ? ?]. simpl. intros ->. unfold set_files. simpl.
  by rewrite insert_delete_eq, insert_insert_eq.
Qed.

Lemma replace_entry (f : FS) k n0 n w :
  files w = <[k := n0]> f ->
  set_files (<[k := n]> (delete k (files w))) w = set_files (<[k := n]> f) w.
Proof.
  intros ->. by rewrite insert_delete_eq, insert_insert_eq.
Qed.

Lemma overwrite_entry (f : FS) k n0 n w :
  files w = <[k := n0]> f ->
  set_files (<[k := n]> (files w)) w = set_files (<[k := n]> f) w.
Proof. intros ->. by rewrite insert_insert_eq. Qed.

(** An entry that [Path.exists] does not see (a dangling link) is still in
    the way of [symlink_to]. *)
Lemma SymLink_run_entry_in_the_way env R o fn w n :
  existsb_fs (files w) (resource env fn) = true ->
  existsb_fs (files w) (destination w o fn) = false ->
  node_at (files w) (destination w o fn) = Some n ->
  SymLink_run (R := R) env o fn w = (Exn FileExistsError, w).
Proof.
  intros Hsrc Hdst Hn. rewrite SymLink_run_cases. cbv zeta.
  rewrite Hsrc, Hdst. unfold os_symlink. by rewrite Hn.
Qed.

(** ** Symlink placement *)

(** C9. With [overwrite] set and a destination that exists without being a
    symbolic link (a plain file or a directory), [SymLink.run] removes
    nothing and never returns an outcome: it ends in an exception with the
    world as it was.  When the bundled resource exists, the link creation
    is attempted and the exception is the [FileExistsError] of the
    operating system. *)
Theorem SymLink_overwrite_plain_destination env R o fn w :
  overwrite o = true ->
  existsb_fs (files w) (destination w o fn) = true ->
  is_symlinkb (files w) (destination w o fn) = false ->
  (exists e, SymLink_run (R := R) env o fn w = (Exn e, w)) /\
  (existsb_fs (files w) (resource env fn) = true ->
   SymLink_run (R := R) env o fn w = (Exn FileExistsError, w)).
Proof.
  intros Hov Hex Hln.
  destruct (existsb_fs_node _ _ Hex) as [n Hn].
  rewrite SymLink_run_cases. cbv zeta. rewrite Hex, Hov, Hln.
  unfold os_symlink. rewrite Hn.
  split; [|by intros ->].
  destruct (existsb_fs (files w) (resource env fn)); eexists; reflexivity.
Qed.

Lemma SymLink_overwrite_plain_destination_witness :
  SymLink_run (R := ExitCode) sample_env force ".tmux.conf" world_plain_tmux
  = (Exn FileExistsError, world_plain_tmux).
Proof.
  apply (SymLink_overwrite_plain_destination sample_env ExitCode force
           ".tmux.conf" world_plain_tmux); vm_compute; reflexivity.
Defined.

(** The runs of [SymLink.run] in which the check [dst.exists()] sees what
    is at the destination, with the bundled resource present and the
    destination directory a directory: a destination that exists is left
    alone with SKIP when [overwrite] is off; a symbolic link that exists
    (its target is there) is unlinked and linked anew with SUCCESS when
    [overwrite] is on; and when there is no entry at all at the destination
    path the link is created with SUCCESS.  A symbolic link whose target is
    gone falls under none of the three: see
    [SymLink_run_entry_in_the_way]. *)
Theorem SymLink_run_spec env R o fn w :
  existsb_fs (files w) (resource env fn) = true ->
  node_at (files w) (abspath w (dest_dir o)) = Some Dir ->
  let dst := destination w o fn in
  let src := resource env fn in
  (existsb_fs (files w) dst = true -> overwrite o = false ->
   SymLink_run (R := R) env o fn w = (Val SKIP, w)) /\
  (existsb_fs (files w) dst = true -> overwrite o = true ->
   is_symlinkb (files w) dst = true ->
   SymLink_run (R := R) env o fn w
   = (Val SUCCESS, set_files (<[dst := Symlink src]> (delete dst (files w))) w)) /\
  (node_at (files w) dst = None ->
   SymLink_run (R := R) env o fn w
   = (Val SUCCESS, set_files (<[dst := Symlink src]> (files w)) w)).
Proof.
  intros Hsrc Hdir dst src. subst dst src.
  rewrite SymLink_run_cases. cbv zeta. rewrite Hsrc.
  repeat split.
  - by intros -> ->.
  - intros -> -> Hln. rewrite Hln.
    unfold is_symlinkb in Hln. unfold os_unlink.
    destruct (node_at (files w) (destination w o fn)) as [[]|] eqn:Hn; try done.
    rewrite destination_snoc in *.
    rewrite os_symlink_fresh; [done| |apply lookup_delete_eq].
    rewrite node_at_delete_ne; [done|apply snoc_ne_self].
  - intros Hn. rewrite (node_at_None_not_exists _ _ Hn).
    rewrite destination_snoc in *. rewrite node_at_snoc in Hn.
    by rewrite os_symlink_fresh.
Qed.

Lemma SymLink_run_spec_witness :
  SymLink_run (R := ExitCode) sample_env keep ".tmux.conf" world_linked_tmux
  = (Val SKIP, world_linked_tmux) /\
  SymLink_run (R := ExitCode) sample_env force ".tmux.conf" world_linked_tmux
  = (Val SUCCESS, world_linked_tmux) /\
  SymLink_run (R := ExitCode) sample_env keep ".tmux.conf" sample_world
  = (Val SUCCESS, world_linked_tmux).
Proof.
  split; [|split].
  - refine (proj1 (SymLink_run_spec sample_env ExitCode keep ".tmux.conf"
              world_linked_tmux _ _) _ _); vm_compute; reflexivity.
  - etransitivity.
    + refine (proj1 (proj2 (SymLink_run_spec sample_env ExitCode force ".tmux.conf"
                world_linked_tmux _ _)) _ _ _); vm_compute; reflexivity.
    + reflexivity.
  - etransitivity.
    + refine (proj2 (proj2 (SymLink_run_spec sample_env ExitCode keep ".tmux.conf"
                sample_world _ _)) _); vm_compute; reflexivity.
    + reflexivity.
Defined.

(** C1, a defect of [SymLink.run].  The failing input: the bundled
    resource [.tmux.conf] exists, [/home] is a directory and
    [/home/.tmux.conf] is a symbolic link whose target is gone.  The guard
    [dst.exists()] follows the link and answers no, so the run takes
    neither the SKIP branch nor the branch that unlinks a symbolic link,
    although [dst.is_symlink()] holds; [dst.symlink_to(src)] then raises
    [FileExistsError] over the link that is there.  This happens with
    [overwrite] off and with [overwrite] on: no outcome is returned, the
    old link is not replaced and the store is as before. *)
Theorem SymLink_dangling_destination :
  wf_fs (files world_dangling_tmux) /\
  existsb_fs (files world_dangling_tmux) (resource sample_env ".tmux.conf") = true /\
  node_at (files world_dangling_tmux) (abspath world_dangling_tmux home) = Some Dir /\
  is_symlinkb (files world_dangling_tmux)
    (destination world_dangling_tmux keep ".tmux.conf") = true /\
  existsb_fs (files world_dangling_tmux)
    (destination world_dangling_tmux keep ".tmux.conf") = false /\
  SymLink_run (R := ExitCode) sample_env keep ".tmux.conf" world_dangling_tmux
  = (Exn FileExistsError, world_dangling_tmux) /\
  SymLink_run (R := ExitCode) sample_env force ".tmux.conf" world_dangling_tmux
  = (Exn FileExistsError, world_dangling_tmux).
Proof.
  split; [vm_compute; reflexivity|].
  split; [vm_compute; reflexivity|].
  split; [vm_compute; reflexivity|].
  split; [vm_compute; reflexivity|].
  split; [vm_compute; reflexivity|].
  split; eapply SymLink_run_entry_in_the_way; vm_compute; reflexivity.
Qed.

Lemma CopyFile_run_cases R o src dst_path w :
  CopyFile_run (R := R) o src dst_path w =
  let f := files w in
  let dst := CopyFile_dst o dst_path in
  let d := abspath w dst in
  if existsb_fs f (abspath w src) then
    if existsb_fs f d then
      if overwrite o then
        if is_symlinkb f d then
          match os_unlink f d with
          | inl e => (Exn e, w)
          | inr f1 => after_copy (shutil_copy (R := ExitCode) src dst (set_files f1 w))
          end
        else if is_fileb f d then after_copy (shutil_copy (R := ExitCode) src dst w)
        else (Val SKIP, w)
      else (Val SKIP, w)
    else after_copy (shutil_copy (R := ExitCode) src dst w)
  else (Exn AssertionError, w).
Proof.
  unfold CopyFile_run, after_copy. unfold_stmt.
  destruct (existsb_fs _ (abspath w src)); [|done].
  destruct (existsb_fs _ (abspath w _)).
  - destruct (overwrite o); [|done].
    destruct (is_symlinkb _ _).
    + destruct (os_unlink _ _); [done|].
      by destruct (shutil_copy _ _ _) as [[]].
    + destruct (is_fileb _ _); [|done].
      by destruct (shutil_copy _ _ _) as [[]].
  - by destruct (shutil_copy _ _ _) as [[]].
Qed.






Lemma node_at_Some_lookup f p n :
  node_at f p = Some n -> n <> Dir -> p <> [] /\ f !! p = Some n.
Proof. destruct p; simpl; [congruence|done]. Qed.

Lemma stat_delete_self f d : d <> [] -> stat (delete d f) d = Missing d.
Proof.
  intros Hd. unfold stat. simpl.
  destruct d; [done|]. simpl. by rewrite lookup_delete_eq.
Qed.







(** ** The simple symlink installers *)

Lemma same_but_stdout_refl w : same_but_stdout w w.
Proof. by repeat split. Qed.

Lemma same_but_stdout_trans w1 w2 w3 :
  same_but_stdout w1 w2 -> same_but_stdout w2 w3 -> same_but_stdout w1 w3.
Proof. intros (?&?&?&?) (?&?&?&?). repeat split; congruence. Qed.

Lemma program_exist_spec env R base program w :
  exists w', same_but_stdout w w' /\
    program_exist (R := R) env base program w = (Val (which env program), w').
Proof.
  unfold program_exist, print. unfold_stmt.
  destruct (which env program); eexists; (split; [|reflexivity]); by repeat split.
Qed.

Lemma call_bind_val {R R' A : Type} (m : M R A) (k : A -> M R R) w a w1 :
  m w = (Val a, w1) -> call (R' := R') (x <- m ;; k x) w = call (R' := R') (k a) w1.
Proof. intros H. unfold call, bind. by rewrite H. Qed.

Lemma call_return {R R' : Type} (b : M R R) w :
  call (R' := R') (r <- call (R' := R) b ;; return_ r) w = call (R' := R') b w.
Proof. unfold call, bind, return_. by destruct (b w) as [[]]. Qed.

Lemma call_SymLink_run env R o fn w :
  call (R' := R) (r <- SymLink_run (R := ExitCode) env o fn ;; return_ r) w
  = SymLink_run (R := R) env o fn w.
Proof. unfold SymLink_run. apply call_return. Qed.

Lemma symlink_installer_run env l fn o w :
  symlink_target l = Some fn ->
  exists w0, same_but_stdout w w0 /\
    run env l o w = SymLink_run (R := ExitCode) env o fn w0.
Proof.
  destruct l; simpl; intros [= <-].
  - destruct (program_exist_spec env ExitCode (name TMux) "tmux" w) as (w1 & H1 & E1).
    destruct (program_exist_spec env ExitCode (name TMux) "xsel" w1) as (w2 & H2 & E2).
    exists w2. split; [by eapply same_but_stdout_trans|].
    unfold TMux_run.
    rewrite (call_bind_val _ _ _ _ _ E1), (call_bind_val _ _ _ _ _ E2).
    apply call_SymLink_run.
  - exists w. split; [apply same_but_stdout_refl|].
    apply call_SymLink_run.
  - destruct (program_exist_spec env ExitCode (name Gdb) "gdb" w) as (w1 & H1 & E1).
    exists w1. split; [done|].
    unfold Gdb_run. rewrite (call_bind_val _ _ _ _ _ E1).
    apply call_SymLink_run.
  - destruct (program_exist_spec env ExitCode (name Fvwm2) "fvwm2" w) as (w1 & H1 & E1).
    exists w1. split; [done|].
    unfold Fvwm2_run. rewrite (call_bind_val _ _ _ _ _ E1).
    apply call_SymLink_run.
Qed.
Lemma strictly_below_snoc (d : list string) x : strictly_below d (d ++ [x]) = true.
Proof.
  unfold strictly_below. apply andb_true_intro. split.
  - apply bool_decide_eq_true_2. by apply prefix_app_r.
  - apply negb_true_iff, bool_decide_eq_false_2.
    intros H. symmetry in H. by apply snoc_ne_self in H.
Qed.

Lemma dir_emptyb_lookup f d p :
  dir_emptyb f d = true -> strictly_below d p = true -> f !! p = None.
Proof.
  unfold dir_emptyb. rewrite forallb_forall. intros He Hp.
  destruct (f !! p) as [n|] eqn:Hn; [|done].
  assert (Hin : In (p, n) (map_to_list f)).
  { apply list_elem_of_In. by apply elem_of_map_to_list. }
  specialize (He _ Hin). simpl in He. by rewrite Hp in He.
Qed.

Lemma stat_regular f p c :
  f !! p = Some (File c) -> p <> [] -> stat f p = Found p (File c).
Proof. intros H Hp. unfold stat. simpl. destruct p; [done|]. simpl. by rewrite H. Qed.

Lemma stat_link_to_regular f p t c :
  node_at f p = Some (Symlink t) -> f !! t = Some (File c) -> t <> [] ->
  stat f p = Found t (File c).
Proof.
  intros Hp Ht Hne. unfold stat. simpl. rewrite Hp.
  destruct t; [done|]. simpl. by rewrite Ht.
Qed.

Lemma resource_not_root env fn : resource env fn <> [].
Proof. unfold resource. simpl. by destruct (module_dir env). Qed.

(** C3.  A simple symlink installer (TMux, Vimperator, Gdb, Fvwm2) run
    with [overwrite] off against an empty destination directory, the
    bundled resource being a non-empty regular file: the first run returns
    SUCCESS and the destination then exists, is non-empty and reads as the
    resource; the run that follows returns SKIP and leaves every file as it
    was. *)
Theorem symlink_installer_twice env l fn o w c :
  symlink_target l = Some fn ->
  overwrite o = false ->
  node_at (files w) (abspath w (dest_dir o)) = Some Dir ->
  dir_emptyb (files w) (abspath w (dest_dir o)) = true ->
  files w !! resource env fn = Some (File c) ->
  c <> EmptyString ->
  exists w1 w2,
    run env l o w = (Val SUCCESS, w1) /\
    check_file_exist (files w1) (destination w1 o fn) = true /\
    open_r (files w1) (destination w1 o fn) = inr c /\
    run env l o w1 = (Val SKIP, w2) /\
    files w2 = files w1.
Proof.
  intros Hl Hov Hdir Hempty Hres Hc.
  destruct (symlink_installer_run env l fn o w Hl) as (w0 & (Hf0 & Hc0 & _) & ->).
  assert (Hdst0 : destination w0 o fn = destination w o fn).
  { unfold destination, abspath. by rewrite Hc0. }
  assert (Hnone : files w !! destination w o fn = None).
  { apply (dir_emptyb_lookup _ _ _ Hempty).
    rewrite destination_snoc. apply strictly_below_snoc. }
  assert (Hne : destination w o fn <> resource env fn) by congruence.
  pose proof (resource_not_root env fn) as Hroot.
  (* first run *)
  pose proof (SymLink_run_spec env ExitCode o fn w0) as Hspec.
  rewrite Hf0, Hdst0 in Hspec.
  assert (Hd0 : abspath w0 (dest_dir o) = abspath w (dest_dir o)).
  { unfold abspath. by rewrite Hc0. }
  rewrite Hd0 in Hspec.
  destruct Hspec as (_ & _ & Hfirst).
  { unfold existsb_fs. by rewrite (stat_regular _ _ _ Hres Hroot). }
  { done. }
  rewrite Hfirst; cycle 1.
  { rewrite destination_snoc, node_at_snoc, <- destination_snoc. done. }
  set (f1 := <[destination w o fn := Symlink (resource env fn)]> (files w)).
  set (w1 := set_files f1 w0).
  assert (Hdst1 : destination w1 o fn = destination w o fn) by done.
  assert (Hres1 : f1 !! resource env fn = Some (File c)).
  { unfold f1. by rewrite lookup_insert_ne. }
  assert (Hstat1 : stat f1 (destination w o fn) = Found (resource env fn) (File c)).
  { apply stat_link_to_regular with (t := resource env fn); try done.
    rewrite destination_snoc, node_at_snoc, <- destination_snoc.
    unfold f1. by rewrite lookup_insert_eq. }
  (* second run *)
  destruct (symlink_installer_run env l fn o w1 Hl) as (w10 & (Hf10 & Hc10 & _) & E2).
  assert (Hdst10 : destination w10 o fn = destination w o fn).
  { unfold destination, abspath. rewrite Hc10. simpl. by rewrite Hc0. }
  pose proof (SymLink_run_spec env ExitCode o fn w10) as Hspec2.
  rewrite Hf10, Hdst10 in Hspec2. simpl in Hspec2.
  destruct Hspec2 as (Hskip & _).
  { unfold existsb_fs. by rewrite (stat_regular _ _ _ Hres1 Hroot). }
  { replace (abspath w10 (dest_dir o)) with (abspath w (dest_dir o))
      by (unfold abspath; rewrite Hc10; simpl; by rewrite Hc0).
    unfold f1. rewrite node_at_insert_ne; [done|].
    rewrite destination_snoc. apply snoc_ne_self. }
  exists w1, w10. rewrite Hdst1. simpl. repeat split.
  - unfold check_file_exist. rewrite Hstat1.
    apply negb_true_iff. by apply bool_decide_eq_false_2.
  - unfold open_r. by rewrite Hstat1.
  - rewrite E2. apply Hskip; [|done].
    unfold existsb_fs. by rewrite Hstat1.
  - done.
Qed.

Lemma symlink_installer_twice_witness :
  exists w1 w2,
    run sample_env TMux keep sample_world = (Val SUCCESS, w1) /\
    check_file_exist (files w1) (destination w1 keep ".tmux.conf") = true /\
    open_r (files w1) (destination w1 keep ".tmux.conf") = inr "set -g prefix C-t" /\
    run sample_env TMux keep w1 = (Val SKIP, w2) /\
    files w2 = files w1.
Proof.
  apply (symlink_installer_twice sample_env TMux ".tmux.conf" keep sample_world
           "set -g prefix C-t"); vm_compute; (reflexivity || discriminate).
Defined.

Arguments stat : simpl never.

(** ** What the placement primitives leave alone *)

Lemma follow_Missing n f p q : follow n f p = Missing q -> node_at f q = None.
Proof.
  revert p. induction n as [|n IH]; intros p; simpl;
    destruct (node_at f p) as [[| |t]|] eqn:Hp; try done; try (by intros [= <-]).
  apply IH.
Qed.

Lemma follow_Found n f p q nd :
  follow n f p = Found q nd -> node_at f q = Some nd /\ forall t, nd <> Symlink t.
Proof.
  revert p. induction n as [|n IH]; intros p; simpl;
    destruct (node_at f p) as [[| |t]|] eqn:Hp; try done;
    try (intros [= <- <-]; by split).
  apply IH.
Qed.

Lemma node_at_None_lookup f q : node_at f q = None -> f !! q = None.
Proof. by destruct q. Qed.

Lemma SymLink_run_world env R o fn w :
  exists f', SymLink_run (R := R) env o fn w = ((SymLink_run (R := R) env o fn w).1, set_files f' w)
    /\ (f' = files w
        \/ (node_at (files w) (destination w o fn) = None
            /\ f' = <[destination w o fn := Symlink (resource env fn)]> (files w))
        \/ (overwrite o = true
            /\ is_symlinkb (files w) (destination w o fn) = true
            /\ (f' = delete (destination w o fn) (files w)
                \/ f' = <[destination w o fn := Symlink (resource env fn)]>
                          (delete (destination w o fn) (files w))))).
Proof.
  rewrite SymLink_run_cases. cbv zeta.
  assert (Hid : forall x : outcome R ExitCode, (x, w) = (x, set_files (files w) w)).
  { intros x. by destruct w. }
  destruct (existsb_fs (files w) (resource env fn));
    [|exists (files w); split; [apply Hid|by left]].
  destruct (existsb_fs (files w) (destination w o fn)) eqn:Hex.
  - destruct (overwrite o); [|exists (files w); split; [apply Hid|by left]].
    destruct (is_symlinkb (files w) (destination w o fn)) eqn:Hln.
    + unfold os_unlink. unfold is_symlinkb in Hln.
      destruct (node_at (files w) (destination w o fn)) as [[| |t]|]; try done.
      unfold os_symlink.
      destruct (node_at (delete _ _) _);
        [eexists; split; [reflexivity|]; right; right; repeat split; by left|].
      destruct (parent_error _ _);
        eexists; (split; [reflexivity|]); right; right; repeat split;
        first [by left | by right].
    + unfold os_symlink. destruct (existsb_fs_node _ _ Hex) as [n ->].
      exists (files w); split; [apply Hid|by left].
  - unfold os_symlink.
    destruct (node_at (files w) (destination w o fn)) eqn:Hn;
      [exists (files w); split; [apply Hid|by left]|].
    destruct (parent_error _ _); [exists (files w); split; [apply Hid|by left]|].
    eexists; split; [reflexivity|]. right; left. by split.
Qed.

(** [SymLink.run] acts on the destination path and on nothing else: every
    other path of the store, the working directory, the output and the
    network log are as before, whatever the flags, the state of the
    destination and the way the run ends. *)
Theorem SymLink_run_touches_only_destination env R o fn w p :
  p <> destination w o fn ->
  let w' := (SymLink_run (R := R) env o fn w).2 in
  files w' !! p = files w !! p /\ cwd w' = cwd w /\ stdout w' = stdout w /\
  log w' = log w /\ ntemp w' = ntemp w.
Proof.
  intros Hp. cbv zeta.
  destruct (SymLink_run_world env R o fn w) as (f' & -> & Hf'). simpl.
  repeat split.
  destruct Hf' as [-> | [(_ & ->) | (_ & _ & [-> | ->])]]; try done.
  - by rewrite lookup_insert_ne.
  - by rewrite lookup_delete_ne.
  - by rewrite lookup_insert_ne, lookup_delete_ne.
Qed.

Lemma SymLink_run_touches_only_destination_witness :
  files (SymLink_run (R := ExitCode) sample_env force ".tmux.conf" world_linked_tmux).2
    !! (sample_resources ++ [".tmux.conf"])
  = files world_linked_tmux !! (sample_resources ++ [".tmux.conf"]).
Proof.
  apply (SymLink_run_touches_only_destination sample_env ExitCode force ".tmux.conf"
           world_linked_tmux (sample_resources ++ [".tmux.conf"])).
  vm_compute. discriminate.
Defined.

(** [SymLink.run] never removes or replaces a regular file or a directory,
    with or without [overwrite]: the only entry it ever unlinks is a
    symbolic link. *)
Theorem SymLink_run_spares_files_and_dirs env R o fn w p n :
  files w !! p = Some n -> is_link n = false ->
  files (SymLink_run (R := R) env o fn w).2 !! p = Some n.
Proof.
  intros Hp Hn.
  destruct (SymLink_run_world env R o fn w) as (f' & -> & Hf'). simpl.
  destruct Hf' as [-> | [(Hd & ->) | (_ & Hln & Hf')]]; try done.
  - rewrite lookup_insert_ne; [done|]. intros <-.
    apply node_at_None_lookup in Hd. congruence.
  - assert (Hne : destination w o fn <> p).
    { intros <-. unfold is_symlinkb in Hln. rewrite destination_snoc, node_at_snoc in Hln.
      rewrite destination_snoc, Hp in *. by destruct n. }
    destruct Hf' as [-> | ->].
    + by rewrite lookup_delete_ne.
    + by rewrite lookup_insert_ne, lookup_delete_ne.
Qed.

Lemma SymLink_run_spares_files_and_dirs_witness :
  files (SymLink_run (R := ExitCode) sample_env force ".tmux.conf" world_plain_tmux).2
    !! ["home"; ".tmux.conf"] = Some (File "bind r source").
Proof.
  apply (SymLink_run_spares_files_and_dirs sample_env ExitCode force ".tmux.conf"
           world_plain_tmux); vm_compute; reflexivity.
Defined.

(** Without [overwrite], [SymLink.run] changes no entry that is there: the
    store after the run contains the store before it. *)
Theorem SymLink_run_without_overwrite_keeps_all env R o fn w :
  overwrite o = false ->
  files w ⊆ files (SymLink_run (R := R) env o fn w).2.
Proof.
  intros Hov.
  destruct (SymLink_run_world env R o fn w) as (f' & -> & Hf'). simpl.
  destruct Hf' as [-> | [(Hd & ->) | (Hov' & _)]]; [done| |congruence].
  apply insert_subseteq. by apply node_at_None_lookup.
Qed.

Lemma SymLink_run_without_overwrite_keeps_all_witness :
  files sample_world
  ⊆ files (SymLink_run (R := ExitCode) sample_env keep ".tmux.conf" sample_world).2.
Proof.
  apply (SymLink_run_without_overwrite_keeps_all sample_env ExitCode keep
           ".tmux.conf" sample_world). reflexivity.
Defined.

Lemma set_files_id {R A : Type} (x : outcome R A) w : (x, w) = (x, set_files (files w) w).
Proof. by destruct w. Qed.

Lemma shutil_copy_world R src dst w :
  is_dirb (files w) (abspath w dst) = false ->
  exists f', (shutil_copy (R := R) src dst w).2 = set_files f' w
    /\ (f' = files w \/ copied (files w) (abspath w dst) f').
Proof.
  intros Hd. unfold shutil_copy, shutil_copyfile. unfold_stmt. rewrite Hd.
  assert (Hsame : w = set_files (files w) w) by (by destruct w).
  destruct (samefileb _ _ _); [exists (files w); split; [done|by left]|].
  destruct (open_r _ _) as [e|c]; [exists (files w); split; [done|by left]|].
  unfold open_w.
  destruct (stat (files w) (abspath w dst)) as [q [c0| |t]|q|] eqn:Hst;
    try (exists (files w); split; [done|by left]).
  - eexists; split; [reflexivity|]. right. exists q, c. split; [done|]. right. eauto.
  - destruct (parent_error _ _);
      [exists (files w); split; [done|by left]|].
    eexists; split; [reflexivity|]. right. exists q, c. split; [done|]. by left.
Qed.

Lemma after_copy_world {R : Type} (r : outcome ExitCode Path * World) :
  (after_copy (R := R) r).2 = r.2.
Proof. by destruct r as [[]]. Qed.

Lemma is_dirb_false_of_file f d : is_fileb f d = true -> is_dirb f d = false.
Proof.
  unfold is_fileb, is_dirb.
  generalize (stat f d). by intros [q [| |]| |].
Qed.

Lemma is_dirb_false_of_missing f d : existsb_fs f d = false -> is_dirb f d = false.
Proof.
  unfold existsb_fs, is_dirb.
  generalize (stat f d). by intros [q [| |]| |].
Qed.

(** The stores [CopyFile.run] can leave behind. *)
Lemma CopyFile_run_world R o src dst_path w :
  let d := abspath w (CopyFile_dst o dst_path) in
  exists f', (CopyFile_run (R := R) o src dst_path w).2 = set_files f' w
    /\ (f' = files w
        \/ (overwrite o = true /\ is_symlinkb (files w) d = false
            /\ copied (files w) d f')
        \/ (existsb_fs (files w) d = false /\ copied (files w) d f')
        \/ (overwrite o = true /\ is_symlinkb (files w) d = true
            /\ (f' = delete d (files w) \/ copied (delete d (files w)) d f'))).
Proof.
  cbv zeta. rewrite CopyFile_run_cases. cbv zeta.
  assert (Hsame : w = set_files (files w) w) by (by destruct w).
  destruct (existsb_fs (files w) (abspath w src));
    [|exists (files w); split; [done|by left]].
  destruct (existsb_fs (files w) (abspath w (CopyFile_dst o dst_path))) eqn:Hex.
  - destruct (overwrite o); [|exists (files w); split; [done|by left]].
    destruct (is_symlinkb (files w) (abspath w (CopyFile_dst o dst_path))) eqn:Hln.
    + unfold os_unlink. unfold is_symlinkb in Hln.
      destruct (node_at (files w) (abspath w (CopyFile_dst o dst_path)))
        as [[| |t]|] eqn:Hn; try done.
      destruct (node_at_Some_lookup _ _ _ Hn) as [Hne _]; [done|].
      rewrite after_copy_world.
      destruct (shutil_copy_world ExitCode src (CopyFile_dst o dst_path)
                  (set_files (delete (abspath w (CopyFile_dst o dst_path)) (files w)) w))
        as (f' & Hw & Hf').
      { rewrite abspath_set_files. simpl. unfold is_dirb. by rewrite stat_delete_self. }
      rewrite Hw. exists f'. split; [done|]. right; right; right. repeat split.
      rewrite abspath_set_files in Hf'. simpl in Hf'. destruct Hf'; [by left|by right].
    + destruct (is_fileb (files w) (abspath w (CopyFile_dst o dst_path))) eqn:Hfile;
        [|exists (files w); split; [done|by left]].
      rewrite after_copy_world.
      destruct (shutil_copy_world ExitCode src (CopyFile_dst o dst_path) w)
        as (f' & -> & Hf'); [by apply is_dirb_false_of_file|].
      exists f'. split; [done|]. destruct Hf' as [->|Hc]; [by left|].
      right; left. by repeat split.
  - rewrite after_copy_world.
    destruct (shutil_copy_world ExitCode src (CopyFile_dst o dst_path) w)
      as (f' & -> & Hf'); [by apply is_dirb_false_of_missing|].
    exists f'. split; [done|]. destruct Hf' as [->|Hc]; [by left|].
    right; right; left. by split.
Qed.

Lemma copied_keeps_dir f0 d f' p :
  copied f0 d f' -> f0 !! p = Some Dir -> f' !! p = Some Dir.
Proof.
  intros (q & c & -> & Hq) Hp. rewrite lookup_insert_ne; [done|]. intros <-.
  unfold stat in Hq. destruct Hq as [Hq | [c0 Hq]].
  - apply follow_Missing, node_at_None_lookup in Hq. congruence.
  - apply follow_Found in Hq as [Hq _]. destruct q; simpl in Hq; congruence.
Qed.

(** [CopyFile.run] never removes or replaces a directory, with or without
    [overwrite]: where the destination is a directory the run leaves it
    (and answers SKIP), and no other directory is touched either. *)
Theorem CopyFile_run_spares_directories R o src dst_path w p :
  files w !! p = Some Dir ->
  files (CopyFile_run (R := R) o src dst_path w).2 !! p = Some Dir.
Proof.
  intros Hp.
  destruct (CopyFile_run_world R o src dst_path w) as (f' & -> & Hf'). simpl.
  destruct Hf' as [-> | [(_ & _ & Hc) | [(_ & Hc) | (_ & Hln & Hf')]]]; try done;
    try (by eapply copied_keeps_dir).
  assert (Hne : abspath w (CopyFile_dst o dst_path) <> p).
  { intros <-. unfold is_symlinkb in Hln.
    destruct (abspath w (CopyFile_dst o dst_path)); [done|].
    simpl in Hln. by rewrite Hp in Hln. }
  destruct Hf' as [-> | Hc].
  - by rewrite lookup_delete_ne.
  - eapply copied_keeps_dir; [done|]. by rewrite lookup_delete_ne.
Qed.

Lemma CopyFile_run_spares_directories_witness :
  files (CopyFile_run (R := ExitCode) force bundled_vimrc (PurePath ".gitconfig")
           world_dir_gitconfig).2 !! ["home"; ".gitconfig"] = Some Dir.
Proof.
  apply (CopyFile_run_spares_directories ExitCode force bundled_vimrc
           (PurePath ".gitconfig") world_dir_gitconfig).
  vm_compute. reflexivity.
Defined.

(** Without [overwrite], [CopyFile.run] changes no entry that is there:
    it only ever adds the copy at a path that had none. *)
Theorem CopyFile_run_without_overwrite_keeps_all R o src dst_path w :
  overwrite o = false ->
  files w ⊆ files (CopyFile_run (R := R) o src dst_path w).2.
Proof.
  intros Hov.
  destruct (CopyFile_run_world R o src dst_path w) as (f' & -> & Hf'). simpl.
  destruct Hf' as [-> | [(Hov' & _) | [(Hex & Hc) | (Hov' & _)]]];
    [done|congruence| |congruence].
  destruct Hc as (q & c & -> & [Hq | [c0 Hq]]).
  - apply insert_subseteq. unfold stat in Hq.
    by apply follow_Missing, node_at_None_lookup in Hq.
  - unfold existsb_fs in Hex. by rewrite Hq in Hex.
Qed.

Lemma CopyFile_run_without_overwrite_keeps_all_witness :
  files sample_world
  ⊆ files (CopyFile_run (R := ExitCode) keep bundled_vimrc (PurePath ".gitconfig")
             sample_world).2.
Proof.
  apply (CopyFile_run_without_overwrite_keeps_all ExitCode keep bundled_vimrc
           (PurePath ".gitconfig") sample_world). reflexivity.
Defined.

(** ** Availability checks *)

Lemma program_exist_stdout env R base program w :
  exists w', program_exist (R := R) env base program w = (Val (which env program), w')
    /\ same_but_stdout w w'
    /\ stdout w' = stdout w ++ warnings env base [program].
Proof.
  unfold program_exist, print, warnings. unfold_stmt. simpl.
  destruct (which env program); eexists; (split; [reflexivity|]); simpl.
  - split; [by repeat split|]. by rewrite app_nil_r.
  - split; [by repeat split|]. done.
Qed.

(** [CommandLineHelper.run] places no file: it always returns SUCCESS, it
    leaves the store, the working directory and the network log as they
    were, and it prints one warning for each of peco, fzf and direnv that
    is not on the search path, in this order. *)
Theorem CommandLineHelper_run_spec env R o w :
  exists w', CommandLineHelper_run (R := R) env o w = (Val SUCCESS, w')
    /\ same_but_stdout w w'
    /\ stdout w' = stdout w
                   ++ warnings env "command-line helper" ["peco"; "fzf"; "direnv"].
Proof.
  destruct (program_exist_stdout env ExitCode (name CommandLineHelper) "peco" w)
    as (w1 & E1 & H1 & O1).
  destruct (program_exist_stdout env ExitCode (name CommandLineHelper) "fzf" w1)
    as (w2 & E2 & H2 & O2).
  destruct (program_exist_stdout env ExitCode (name CommandLineHelper) "direnv" w2)
    as (w3 & E3 & H3 & O3).
  exists w3. unfold CommandLineHelper_run.
  rewrite (call_bind_val _ _ _ _ _ E1), (call_bind_val _ _ _ _ _ E2),
    (call_bind_val _ _ _ _ _ E3).
  split; [done|]. split.
  - eapply same_but_stdout_trans; [|done]. by eapply same_but_stdout_trans.
  - rewrite O3, O2, O1. unfold warnings. simpl. rewrite !app_nil_r, <- !app_assoc. done.
Qed.

(** ** Repeated runs of a symlink installer with [overwrite] *)

Section SymlinkInstallerOverwrite.

Variable env : Env.
Variable l : Logic.
Variable fn : string.
Variable o : Option.
Variable w : World.
Variable c : string.

Hypothesis Htarget : symlink_target l = Some fn.
Hypothesis Hoverwrite : overwrite o = true.
Hypothesis Hdir : node_at (files w) (abspath w (dest_dir o)) = Some Dir.
Hypothesis Hempty : dir_emptyb (files w) (abspath w (dest_dir o)) = true.
Hypothesis Hresource : files w !! resource env fn = Some (File c).

Let dst := destination w o fn.
Let linked : FS := <[dst := Symlink (resource env fn)]> (files w).

Local Lemma dst_free : files w !! dst = None.
Proof using Hempty.
  apply (dir_emptyb_lookup _ _ _ Hempty).
  unfold dst. rewrite destination_snoc. apply strictly_below_snoc.
Qed.

Local Lemma overwrite_step w1 :
  cwd w1 = cwd w -> (files w1 = files w \/ files w1 = linked) ->
  exists w2, run env l o w1 = (Val SUCCESS, w2) /\ cwd w2 = cwd w /\ files w2 = linked.
Proof using Htarget Hoverwrite Hdir Hempty Hresource.
  intros Hcwd Hfiles.
  destruct (symlink_installer_run env l fn o w1 Htarget) as (w0 & (Hf0 & Hc0 & _) & ->).
  pose proof dst_free as Hfree.
  pose proof (resource_not_root env fn) as Hroot.
  assert (Hne : dst <> resource env fn) by congruence.
  assert (Hdst0 : destination w0 o fn = dst).
  { unfold dst, destination, abspath. by rewrite Hc0, Hcwd. }
  assert (Hd0 : abspath w0 (dest_dir o) = abspath w (dest_dir o)).
  { unfold abspath. by rewrite Hc0, Hcwd. }
  assert (Hparent : dst <> abspath w (dest_dir o)).
  { unfold dst. rewrite destination_snoc. apply snoc_ne_self. }
  pose proof (SymLink_run_spec env ExitCode o fn w0) as Hspec.
  rewrite Hdst0, Hd0, Hf0 in Hspec. cbv zeta in Hspec.
  destruct Hfiles as [Hfiles | Hfiles]; rewrite Hfiles in Hspec.
  - destruct Hspec as (_ & _ & Hrun).
    { unfold existsb_fs. by rewrite (stat_regular _ _ _ Hresource Hroot). }
    { done. }
    rewrite Hrun.
    + eexists; split; [reflexivity|]. simpl. split; [congruence|done].
    + unfold dst. rewrite destination_snoc, node_at_snoc, <- destination_snoc. apply Hfree.
  - assert (Hres1 : linked !! resource env fn = Some (File c)).
    { unfold linked. by rewrite lookup_insert_ne. }
    assert (Hnode : node_at linked dst = Some (Symlink (resource env fn))).
    { unfold dst. rewrite destination_snoc, node_at_snoc, <- destination_snoc.
      unfold linked. apply lookup_insert_eq. }
    destruct Hspec as (_ & Hrun & _).
    { unfold existsb_fs. by rewrite (stat_regular _ _ _ Hres1 Hroot). }
    { unfold linked. by rewrite node_at_insert_ne. }
    rewrite Hrun; [|unfold existsb_fs;
                     by rewrite (stat_link_to_regular _ _ _ _ Hnode Hres1 Hroot)
                   |done|unfold is_symlinkb; by rewrite Hnode].
    eexists; split; [reflexivity|]. simpl. split; [congruence|].
    unfold linked. by rewrite insert_delete_eq, insert_insert_eq.
Qed.

Local Lemma overwrite_runs n : forall w1,
  cwd w1 = cwd w -> (files w1 = files w \/ files w1 = linked) ->
  (runs env l o n w1).1 = replicate n (Val SUCCESS)
  /\ (0 < n -> files (runs env l o n w1).2 = linked).
Proof using Htarget Hoverwrite Hdir Hempty Hresource.
  induction n as [|n IH]; intros w1 Hcwd Hfiles; simpl.
  - split; [done|lia].
  - destruct (overwrite_step w1 Hcwd Hfiles) as (w2 & -> & Hcwd2 & Hf2).
    destruct (IH w2 Hcwd2 (or_intror Hf2)) as [Hout Hlast].
    destruct (runs env l o n w2) as [rs w3] eqn:Hruns. simpl in *.
    split; [by rewrite Hout|]. intros _.
    destruct n; [|apply Hlast; lia].
    simpl in Hruns. by injection Hruns as _ <-.
Qed.

(** With [overwrite] on, a simple symlink installer can be run any number
    of times on a destination directory that starts empty: every run
    returns SUCCESS (never SKIP), and after every run the store is the
    initial one plus the link to the resource, through which the
    destination passes the tests' [_check_file_exist] when the resource is
    not empty. *)
Theorem symlink_installer_overwrite_repeated n :
  0 < n -> c <> EmptyString ->
  (runs env l o n w).1 = replicate n (Val SUCCESS)
  /\ files (runs env l o n w).2 = <[destination w o fn := Symlink (resource env fn)]> (files w)
  /\ check_file_exist (files (runs env l o n w).2) (destination w o fn) = true.
Proof using Htarget Hoverwrite Hdir Hempty Hresource.
  intros Hn Hc.
  destruct (overwrite_runs n w eq_refl (or_introl eq_refl)) as [Hout Hlast].
  specialize (Hlast Hn). split; [done|]. split; [done|].
  rewrite Hlast. unfold check_file_exist.
  pose proof dst_free as Hfree.
  assert (Hne : dst <> resource env fn) by congruence.
  assert (Hst : stat linked dst = Found (resource env fn) (File c)).
  { apply stat_link_to_regular.
    - unfold dst. rewrite destination_snoc, node_at_snoc, <- destination_snoc.
      apply lookup_insert_eq.
    - unfold linked. by rewrite lookup_insert_ne.
    - apply resource_not_root. }
  change (destination w o fn) with dst. rewrite Hst.
  apply negb_true_iff. by apply bool_decide_eq_false_2.
Qed.

End SymlinkInstallerOverwrite.

Lemma symlink_installer_overwrite_repeated_witness :
  (runs sample_env Gdb force 3 sample_world).1 = replicate 3 (Val SUCCESS)
  /\ files (runs sample_env Gdb force 3 sample_world).2
     = <[destination sample_world force ".gdbinit" :=
           Symlink (resource sample_env ".gdbinit")]> (files sample_world)
  /\ check_file_exist (files (runs sample_env Gdb force 3 sample_world).2)
       (destination sample_world force ".gdbinit") = true.
Proof.
  apply (symlink_installer_overwrite_repeated sample_env Gdb ".gdbinit" force
           sample_world "set history save on");
    try (vm_compute; reflexivity); [lia|discriminate].
Defined.

(** ** Statements that stay quiet *)

Global Instance quiet_preorder : PreOrder quiet.
Proof.
  split.
  - intros w. by repeat split.
  - intros w1 w2 w3 (Hl1 & Hc1 & Hd1) (Hl2 & Hc2 & Hd2). repeat split; try congruence.
    intros p Hp. auto.
Qed.

Section Preserves.

Context (Rel : World -> World -> Prop) `{!PreOrder Rel}.

Lemma preserves_pure {R A : Type} (a : A) : preserves Rel (pure (R := R) a).
Proof using Type*. intros w. simpl. reflexivity. Qed.

Lemma preserves_return {R A : Type} (r : R) : preserves Rel (return_ (A := A) r).
Proof using Type*. intros w. simpl. reflexivity. Qed.

Lemma preserves_raise {R A : Type} e : preserves Rel (raise (R := R) (A := A) e).
Proof using Type*. intros w. simpl. reflexivity. Qed.

Lemma preserves_assert {R : Type} b : preserves Rel (assert_ (R := R) b).
Proof using Type*. destruct b; [apply preserves_pure|apply preserves_raise]. Qed.

Lemma preserves_bind {R A B : Type} (m : M R A) (k : A -> M R B) :
  preserves Rel m -> (forall a, preserves Rel (k a)) -> preserves Rel (bind m k).
Proof using Type*.
  intros Hm Hk w. unfold bind. specialize (Hm w).
  destruct (m w) as [[a|r|e] w1]; simpl in *; try done.
  etransitivity; [exact Hm|apply Hk].
Qed.

Lemma preserves_call {R R' : Type} (b : M R R) :
  preserves Rel b -> preserves Rel (call (R' := R') b).
Proof using Type*.
  intros Hb w. unfold call. specialize (Hb w).
  by destruct (b w) as [[a|r|e] w1].
Qed.

Lemma preserves_read {R A : Type} (g : World -> A) :
  preserves Rel (fun w => (Val (R := R) (g w), w)).
Proof using Type*. intros w. simpl. reflexivity. Qed.

End Preserves.

Lemma quiet_set_files w f' :
  (forall p, files w !! p = Some Dir -> f' !! p = Some Dir) -> quiet w (set_files f' w).
Proof. intros H. by repeat split. Qed.

Lemma quiet_program_exist env R base program :
  preserves quiet (program_exist (R := R) env base program).
Proof.
  intros w. destruct (program_exist_spec env R base program w) as (w' & (Hf & Hc & Hl & _) & ->).
  simpl. repeat split; try done. intros p. by rewrite Hf.
Qed.

Lemma quiet_CopyFile_run R o src dst_path :
  preserves quiet (CopyFile_run (R := R) o src dst_path).
Proof.
  intros w. pose proof (CopyFile_run_spares_directories R o src dst_path w) as Hd.
  destruct (CopyFile_run_world R o src dst_path w) as (f' & Hw & _).
  rewrite Hw in *. by apply quiet_set_files.
Qed.

Lemma mkstemp_inner_fresh f dir names n i t :
  mkstemp_inner f dir names n i = inr t ->
  f !! t = None /\ node_at f dir = Some Dir /\ exists x, t = dir ++ [x].
Proof.
  revert i. induction n as [|n IH]; intros i; simpl; [done|].
  destruct (node_at f dir) as [[| |]|] eqn:Hd; try done.
  destruct (f !! (dir ++ [names i])) eqn:Hx; [apply IH|].
  intros [= <-]. eauto.
Qed.

Lemma quiet_tmp_write R p s : preserves quiet (tmp_write (R := R) p s).
Proof.
  intros w. unfold tmp_write.
  destruct (files w !! parts p) as [[| |]|] eqn:Hp; simpl; try reflexivity.
  apply quiet_set_files. intros q Hq. rewrite lookup_insert_ne; [done|congruence].
Qed.

Lemma quiet_os_unlink R (g : World -> list string) :
  preserves quiet (fun w => lift_fs (R := R) (fun fs => os_unlink fs (g w)) w).
Proof.
  intros w. unfold lift_fs, os_unlink.
  destruct (node_at (files w) (g w)) as [[| |]|] eqn:Hn; simpl; try reflexivity.
  - apply quiet_set_files. intros q Hq. rewrite lookup_delete_ne; [done|].
    intros <-. destruct (g w); simpl in Hn; congruence.
  - apply quiet_set_files. intros q Hq. rewrite lookup_delete_ne; [done|].
    intros <-. destruct (g w); simpl in Hn; congruence.
Qed.

Lemma quiet_with_NamedTemporaryFile env R A (body : Path -> M R A) :
  (forall p, preserves quiet (body p)) ->
  preserves quiet (with_NamedTemporaryFile env body).
Proof.
  intros Hbody w. unfold with_NamedTemporaryFile, NamedTemporaryFile.
  destruct (mkstemp_inner _ _ _ _ _) as [e|t] eqn:Ht; simpl.
  { by repeat split. }
  apply mkstemp_inner_fresh in Ht as (Hfree & _ & _).
  set (w1 := bump_temp (set_files (<[t := File EmptyString]> (files w)) w)).
  assert (H1 : quiet w w1).
  { repeat split; try done. intros q Hq. simpl.
    rewrite lookup_insert_ne; [done|congruence]. }
  pose proof (Hbody {| absolute := true; parts := t |} w1) as H2.
  destruct (body _ w1) as [r w2]. simpl in H2.
  pose proof (quiet_os_unlink R (fun _ => t) w2) as H3. unfold tmp_close.
  cbn beta in H3. cbn [parts].
  destruct (lift_fs (fun fs => os_unlink fs t) w2) as [[a|r'|e] w3]; simpl in *;
    (etransitivity; [exact H1|]); (etransitivity; [exact H2|exact H3]).
Qed.

(** ** Zsh: the completions are cloned only when missing *)

Lemma call_world {R R' : Type} (b : M R R) w : (call (R' := R') b w).2 = (b w).2.
Proof. unfold call. by destruct (b w) as [[]]. Qed.

Lemma quiet_render R tpl p : preserves quiet (render (R := R) tpl p).
Proof.
  unfold render. destruct (format tpl (str_path p));
    [apply preserves_pure|apply preserves_raise]; apply _.
Qed.

Lemma quiet_Zsh_copy env o tpl target : preserves quiet (Zsh_copy env o tpl target).
Proof.
  apply quiet_with_NamedTemporaryFile. intros f.
  apply preserves_bind; [apply _|apply (preserves_read quiet)|intros b].
  apply preserves_bind; [apply _|apply preserves_assert; apply _|intros _].
  apply preserves_bind; [apply _|apply quiet_render|intros s].
  apply preserves_bind; [apply _|apply quiet_tmp_write|intros _].
  apply preserves_bind; [apply _|apply quiet_CopyFile_run|intros ret].
  apply preserves_bind; [apply _| |intros _; apply preserves_pure; apply _].
  destruct (bool_decide _); [apply preserves_return|apply preserves_pure]; apply _.
Qed.

Lemma quiet_Zsh_copies env o :
  preserves quiet
    (_ <- Zsh_copy env o ZSHRC_TEMPLATE ".zshrc" ;;
     ret <- Zsh_copy env o ZSHENV_TEMPLATE ".zshenv" ;;
     return_ (A := ExitCode) ret).
Proof.
  apply preserves_bind; [apply _|apply quiet_Zsh_copy|intros _].
  apply preserves_bind; [apply _|apply quiet_Zsh_copy|intros ret].
  apply preserves_return; apply _.
Qed.

(** One run of [Zsh.run] makes exactly one network access, the clone of
    zsh-completions into [dest_dir/.zsh-completions], when that path does
    not exist at the start, and none when it exists; the [overwrite] flag
    plays no part, and neither does the way the run ends. *)
Theorem Zsh_run_clone_guard env R o w :
  let zc := abspath w (dest_dir o // PurePath ".zsh-completions") in
  log (Zsh_run (R := R) env o w).2
  = if existsb_fs (files w) zc then log w
    else log w ++ [EvClone ZSH_COMPLETIONS_URL zc].
Proof.
  cbv zeta. unfold Zsh_run. rewrite call_world.
  destruct (program_exist_spec env ExitCode (name Zsh) "zsh" w) as (w1 & (Hf & Hc & Hl & _) & E1).
  unfold bind at 1. rewrite E1.
  assert (Hzc : abspath w1 (dest_dir o // PurePath ".zsh-completions")
                = abspath w (dest_dir o // PurePath ".zsh-completions")).
  { unfold abspath. by rewrite Hc. }
  pose proof (quiet_Zsh_copies env o) as Hq.
  unfold bind at 1. unfold Zsh_clone at 1. unfold bind at 1, Path_exists at 1.
  rewrite Hzc, Hf.
  destruct (existsb_fs (files w) _); simpl.
  - destruct (Hq w1) as (Hlog & _). by rewrite Hlog.
  - unfold Repo_clone_from. rewrite Hzc.
    destruct (clone_net env _); [|simpl; by rewrite Hl].
    destruct (git_prepare_dir _ _); [simpl; by rewrite Hl|].
    match goal with |- log (?k ?w2).2 = _ => destruct (Hq w2) as (Hlog & _) end.
    rewrite Hlog. simpl. by rewrite Hl.
Qed.

Lemma stat_dir f p : node_at f p = Some Dir -> stat f p = Found p Dir.
Proof. intros H. unfold stat. simpl. by rewrite H. Qed.

Lemma quiet_Zsh_run_when_cloned env R o w :
  files w !! abspath w (dest_dir o // PurePath ".zsh-completions") = Some Dir ->
  quiet w (Zsh_run (R := R) env o w).2.
Proof.
  intros Hdir. unfold Zsh_run. rewrite call_world.
  destruct (program_exist_spec env ExitCode (name Zsh) "zsh" w) as (w1 & (Hf & Hc & Hl & _) & E1).
  unfold bind at 1. rewrite E1.
  assert (Hzc : abspath w1 (dest_dir o // PurePath ".zsh-completions")
                = abspath w (dest_dir o // PurePath ".zsh-completions")).
  { unfold abspath. by rewrite Hc. }
  assert (H1 : quiet w w1).
  { repeat split; try done. intros p. by rewrite Hf. }
  unfold bind at 1. unfold Zsh_clone at 1. unfold bind at 1, Path_exists at 1.
  rewrite Hzc, Hf.
  assert (Hex : existsb_fs (files w)
                  (abspath w (dest_dir o // PurePath ".zsh-completions")) = true).
  { unfold existsb_fs. rewrite stat_dir; [done|].
    rewrite abspath_join_name, node_at_snoc, <- abspath_join_name. done. }
  rewrite Hex. simpl.
  etransitivity; [exact H1|]. apply (quiet_Zsh_copies env o w1).
Qed.

(** Once [dest_dir/.zsh-completions] is a directory, no later run of
    [Zsh.run] clones again: over any sequence of runs, with any [overwrite]
    flags, the network log stays as it is and the directory stays a
    directory. *)
Theorem Zsh_never_clones_again env d flags w :
  files w !! abspath w (d // PurePath ".zsh-completions") = Some Dir ->
  log (Zsh_runs env d flags w) = log w
  /\ files (Zsh_runs env d flags w) !! abspath w (d // PurePath ".zsh-completions")
     = Some Dir.
Proof.
  revert w. induction flags as [|b flags IH]; intros w Hdir; simpl; [done|].
  pose proof (quiet_Zsh_run_when_cloned env ExitCode {| dest_dir := d; overwrite := b |} w Hdir)
    as (Hl & Hc & Hd).
  set (w1 := (Zsh_run env {| dest_dir := d; overwrite := b |} w).2) in *.
  assert (Hzc : abspath w1 (d // PurePath ".zsh-completions")
                = abspath w (d // PurePath ".zsh-completions")).
  { unfold abspath. by rewrite Hc. }
  destruct (IH w1) as [IHl IHd].
  { rewrite Hzc. by apply Hd. }
  rewrite Hzc in IHd. split; [congruence|done].
Qed.

Lemma Zsh_never_clones_again_witness :
  log (Zsh_runs sample_env home [true; false; true] world_with_completions)
  = log world_with_completions.
Proof.
  apply (Zsh_never_clones_again sample_env home [true; false; true]
           world_with_completions).
  vm_compute. reflexivity.
Defined.

(** ** Vim: the directory step and the download of plug.vim *)

Lemma grows_dirs_refl ap f : grows_dirs ap f f.
Proof. intros p. by left. Qed.

Lemma grows_dirs_trans ap1 ap f1 f2 f3 :
  ap1 `prefix_of` ap -> grows_dirs ap1 f1 f2 -> grows_dirs ap f2 f3 -> grows_dirs ap f1 f3.
Proof.
  intros Hpre H12 H23 p.
  destruct (H12 p) as [E12 | (N1 & D2 & P1)], (H23 p) as [E23 | (N2 & D3 & P2)].
  - left. congruence.
  - right. repeat split; try done. congruence.
  - right. repeat split; try congruence. by etransitivity.
  - congruence.
Qed.

Lemma os_mkdir_grows f ap f' : os_mkdir f ap = inr f' -> grows_dirs ap f f'.
Proof.
  unfold os_mkdir. destruct (node_at f ap) eqn:Hn; [done|].
  destruct (parent_error f ap); [done|]. intros [= <-] p.
  destruct (decide (p = ap)) as [->|Hne].
  - right. rewrite lookup_insert_eq. repeat split; [by apply node_at_None_lookup|done].
  - left. by rewrite lookup_insert_ne.
Qed.

Lemma Path_mkdir_grows fuel : forall f ap parents exist_ok f',
  Path_mkdir fuel f ap parents exist_ok = inr f' -> grows_dirs ap f f'.
Proof.
  induction fuel as [|k IH]; intros f ap parents exist_ok f'; simpl;
    destruct (os_mkdir f ap) as [e|f0] eqn:Hmk;
    try (intros [= <-]; by apply os_mkdir_grows).
  - destruct e; destruct (_ || _); try done; intros [= <-]; apply grows_dirs_refl.
  - destruct e; try (destruct (_ || _); [done|intros [= <-]; apply grows_dirs_refl]).
    destruct (_ || _); [done|].
    destruct (Path_mkdir k f (removelast ap) true true) as [e1|f1] eqn:H1; [done|].
    intros H2. eapply grows_dirs_trans; [|by eapply IH|by eapply IH].
    destruct (decide (ap = [])) as [->|Hne]; [done|].
    destruct (exists_last Hne) as (l' & x & ->). rewrite removelast_snoc.
    by apply prefix_app_r.
Qed.


Lemma Vim_ensure_autoload_cases R o w :
  Vim_ensure_autoload (R := R) o w =
  let ap := abspath w (Vim_autoload o) in
  if existsb_fs (files w) ap then (Val tt, w)
  else match Path_mkdir (S (length ap)) (files w) ap true false with
       | inl e => (Exn e, w)
       | inr f' => (Val tt, set_files f' w)
       end.
Proof.
  unfold Vim_ensure_autoload, Path_mkdir_parents. unfold_stmt. cbv zeta.
  destruct (existsb_fs _ _); [done|]. simpl.
  by destruct (Path_mkdir _ _ _ _ _).
Qed.

Lemma quiet_write_text R p c : preserves quiet (write_text (R := R) p c).
Proof.
  intros w. unfold write_text, lift_fs, open_w.
  destruct (stat (files w) (abspath w p)) as [q [c0| |t]|q|] eqn:Hst;
    simpl; try reflexivity.
  - apply quiet_set_files. intros r Hr. rewrite lookup_insert_ne; [done|].
    intros <-. unfold stat in Hst. apply follow_Found in Hst as [Hq _].
    destruct q; simpl in Hq; congruence.
  - destruct (parent_error _ _); simpl; [reflexivity|].
    apply quiet_set_files. intros r Hr. rewrite lookup_insert_ne; [done|].
    intros <-. unfold stat in Hst. apply follow_Missing, node_at_None_lookup in Hst.
    congruence.
Qed.

Lemma quiet_Vim_install_vimrc env o : preserves quiet (Vim_install_vimrc env o).
Proof.
  apply quiet_with_NamedTemporaryFile. intros f.
  apply preserves_bind; [apply _|apply (preserves_read quiet)|intros b].
  apply preserves_bind; [apply _|apply preserves_assert; apply _|intros _].
  apply preserves_bind; [apply _| |intros s].
  { destruct (format _ _); [apply preserves_pure|apply preserves_raise]; apply _. }
  apply preserves_bind; [apply _|apply quiet_tmp_write|intros _].
  apply preserves_bind; [apply _|apply quiet_CopyFile_run|intros ret].
  apply preserves_return; apply _.
Qed.

(** From the download on: one GET exactly when plug.vim is absent or
    [overwrite] is set, none otherwise. *)
Lemma Vim_from_download env o w :
  log (bind (Vim_install_plug (R := ExitCode) env o)
            (fun _ => Vim_install_vimrc env o) w).2
  = if negb (existsb_fs (files w) (abspath w (Vim_autoload o // PurePath "plug.vim")))
       || overwrite o
    then log w ++ [EvGet PLUG_VIM_URL] else log w.
Proof.
  pose proof (quiet_Vim_install_vimrc env o) as Hq.
  unfold bind at 1. unfold Vim_install_plug, bind at 1, Path_exists at 1.
  destruct (negb _ || overwrite o).
  - unfold bind at 1, requests_get.
    destruct (http_net env _) as [resp|]; [|done].
    unfold bind at 1, assert_.
    destruct (bool_decide _); [|done]. unfold pass, pure.
    pose proof (quiet_write_text ExitCode
                  (Vim_autoload o // PurePath "plug.vim") (text resp)
                  (add_event (EvGet PLUG_VIM_URL) w)) as (Hl & _).
    destruct (write_text _ _ _) as [[a|r|e] w2]; simpl in *; try done.
    destruct (Hq w2) as (Hl2 & _). congruence.
  - unfold pass, pure. by destruct (Hq w) as (-> & _).
Qed.

Lemma plug_absent_after_mkdir f ap f' x :
  wf_fs f -> existsb_fs f ap = false -> grows_dirs ap f f' ->
  existsb_fs f (ap ++ [x]) = false /\ existsb_fs f' (ap ++ [x]) = false.
Proof.
  intros Hwf Hex Hgrow.
  assert (Hnone : f !! (ap ++ [x]) = None).
  { destruct (f !! (ap ++ [x])) as [n|] eqn:Hn; [|done].
    apply (wf_fs_parent _ _ _ Hwf) in Hn. rewrite removelast_snoc in Hn.
    unfold existsb_fs in Hex. by rewrite (stat_dir _ _ Hn) in Hex. }
  split; apply node_at_None_not_exists; rewrite node_at_snoc; [done|].
  destruct (Hgrow (ap ++ [x])) as [-> | (_ & _ & Hpre)]; [done|].
  apply prefix_length in Hpre. rewrite length_app in Hpre. simpl in Hpre. lia.
Qed.

(** [Vim.run] fetches plug.vim with one HTTP GET exactly when the directory
    step gets through and the local copy [dest_dir/.vim/autoload/plug.vim]
    is absent or [overwrite] is set; otherwise it makes no network access
    at all. *)
Theorem Vim_run_download_guard env R o w :
  wf_fs (files w) ->
  log (Vim_run (R := R) env o w).2
  = if Vim_autoload_ready o w
       && (negb (existsb_fs (files w)
                   (abspath w (Vim_autoload o // PurePath "plug.vim")))
           || overwrite o)
    then log w ++ [EvGet PLUG_VIM_URL] else log w.
Proof.
  intros Hwf. unfold Vim_run. rewrite call_world.
  destruct (program_exist_spec env ExitCode (name Vim) "vim" w)
    as (w0 & (Hf & Hc & Hl & _) & E1).
  unfold bind at 1. rewrite E1.
  assert (Hap : forall p, abspath w0 p = abspath w p).
  { intros p. unfold abspath. by rewrite Hc. }
  unfold Vim_autoload_ready. unfold bind at 1.
  rewrite !Vim_ensure_autoload_cases. cbv zeta. rewrite Hap, Hf.
  destruct (existsb_fs (files w) (abspath w (Vim_autoload o))) eqn:Hex.
  - simpl. rewrite (Vim_from_download env o w0). by rewrite Hap, Hf, Hl.
  - destruct (Path_mkdir _ _ _ _ _) as [e|f'] eqn:Hmk; simpl; [done|].
    rewrite (Vim_from_download env o (set_files f' w0)).
    rewrite abspath_set_files, Hap. simpl. rewrite Hl.
    apply Path_mkdir_grows in Hmk.
    rewrite abspath_join_name.
    destruct (plug_absent_after_mkdir _ _ _ "plug.vim" Hwf Hex Hmk) as [-> ->].
    done.
Qed.

Lemma Vim_run_download_guard_witness :
  log (Vim_run (R := ExitCode) sample_env keep sample_world).2 = [EvGet PLUG_VIM_URL].
Proof.
  etransitivity.
  - apply (Vim_run_download_guard sample_env ExitCode keep sample_world).
    vm_compute. reflexivity.
  - vm_compute. reflexivity.
Defined.

Lemma Vim_from_download_bad_status env o w resp :
  negb (existsb_fs (files w) (abspath w (Vim_autoload o // PurePath "plug.vim")))
    || overwrite o = true ->
  http_net env (length (log w)) = Some resp ->
  status_code resp <> 200 ->
  bind (Vim_install_plug (R := ExitCode) env o) (fun _ => Vim_install_vimrc env o) w
  = (Exn AssertionError, add_event (EvGet PLUG_VIM_URL) w).
Proof.
  intros Hcond Hnet Hstatus.
  unfold bind at 1. unfold Vim_install_plug, bind at 1, Path_exists at 1.
  rewrite Hcond. unfold bind at 1, requests_get. rewrite Hnet.
  unfold bind at 1, assert_. by rewrite bool_decide_eq_false_2.
Qed.

Lemma Vim_run_bad_status_world env R o w resp :
  wf_fs (files w) ->
  Vim_autoload_ready o w = true ->
  negb (existsb_fs (files w) (abspath w (Vim_autoload o // PurePath "plug.vim")))
    || overwrite o = true ->
  http_net env (length (log w)) = Some resp ->
  status_code resp <> 200 ->
  exists w1, Vim_run (R := R) env o w = (Exn AssertionError, add_event (EvGet PLUG_VIM_URL) w1)
    /\ ntemp w1 = ntemp w
    /\ files w1 !! abspath w (Vim_autoload o // PurePath "plug.vim")
       = files w !! abspath w (Vim_autoload o // PurePath "plug.vim").
Proof.
  intros Hwf Hready Hcond Hnet Hstatus. unfold Vim_run, call.
  destruct (program_exist_spec env ExitCode (name Vim) "vim" w)
    as (w0 & (Hf & Hc & Hl & Hn) & E1).
  unfold bind at 1. rewrite E1.
  assert (Hap : forall p, abspath w0 p = abspath w p).
  { intros p. unfold abspath. by rewrite Hc. }
  unfold Vim_autoload_ready in Hready. unfold bind at 1.
  rewrite Vim_ensure_autoload_cases in Hready.
  rewrite Vim_ensure_autoload_cases. cbv zeta in *. rewrite Hap, Hf.
  destruct (existsb_fs (files w) (abspath w (Vim_autoload o))) eqn:Hex.
  - rewrite (Vim_from_download_bad_status env o w0 resp); try done.
    + exists w0. by rewrite Hn, Hf.
    + by rewrite Hap, Hf.
    + by rewrite Hl.
  - destruct (Path_mkdir _ _ _ _ _) as [e|f'] eqn:Hmk; simpl in Hready; [done|].
    apply Path_mkdir_grows in Hmk.
    pose proof (plug_absent_after_mkdir _ _ _ "plug.vim" Hwf Hex Hmk) as [Hp0 Hp1].
    rewrite (Vim_from_download_bad_status env o (set_files f' w0) resp); try done.
    + exists (set_files f' w0). simpl. repeat split; try done.
      rewrite abspath_join_name.
      destruct (Hmk (abspath w (Vim_autoload o) ++ ["plug.vim"]))
        as [-> | (_ & _ & Hpre)]; [done|].
      apply prefix_length in Hpre. rewrite length_app in Hpre. simpl in Hpre. lia.
    + rewrite abspath_set_files, Hap. simpl. rewrite abspath_join_name. by rewrite Hp1.
    + simpl. by rewrite Hl.
Qed.

(** When [Vim.run] downloads and the response status is not 200, the run
    ends in the assertion failure and returns no outcome: plug.vim is not
    written and the [.vimrc] step is never reached (no temporary file is
    made). *)
Theorem Vim_run_bad_status env R o w resp :
  wf_fs (files w) ->
  Vim_autoload_ready o w = true ->
  negb (existsb_fs (files w) (abspath w (Vim_autoload o // PurePath "plug.vim")))
    || overwrite o = true ->
  http_net env (length (log w)) = Some resp ->
  status_code resp <> 200 ->
  (Vim_run (R := R) env o w).1 = Exn AssertionError
  /\ ntemp (Vim_run (R := R) env o w).2 = ntemp w
  /\ files (Vim_run (R := R) env o w).2 !! abspath w (Vim_autoload o // PurePath "plug.vim")
     = files w !! abspath w (Vim_autoload o // PurePath "plug.vim").
Proof.
  intros Hwf Hready Hcond Hnet Hstatus.
  destruct (Vim_run_bad_status_world env R o w resp Hwf Hready Hcond Hnet Hstatus)
    as (w1 & -> & Hn & Hp).
  by repeat split.
Qed.

Lemma Vim_run_bad_status_witness :
  (Vim_run (R := ExitCode) sample_env_404 keep sample_world).1 = Exn AssertionError.
Proof.
  apply (Vim_run_bad_status sample_env_404 ExitCode keep sample_world
           {| status_code := 404; text := "Not Found" |});
    try (vm_compute; reflexivity).
  vm_compute. discriminate.
Defined.
